(** * SignalNoiseGradients: the experiment driver [main.py]

    A shallow embedding of [run_experiment] and of the main script of
    [src/main.py], with the collaborators it imports from the [sngrad]
    package ([DataServer], [Model], [learning_rate_search],
    [comp_loss_accuracy], [one_hot], ...) taken as an interface, since
    only their call sites are part of [main.py].

    Python values are modelled as follows:
    - [int] as [Z]; [range(n)] as the list [0; ...; n-1] (empty for [n <= 0]);
      [a % b] as [Z.modulo], raising [ZeroDivisionError] for [b = 0];
    - [str] as [string]; [None]-or-value as [option];
    - the [hparams] dictionary as a record with one field per key of the
      literal of the main script, with [to_dict] giving back the keys;
    - floats as an abstract type [scalar] of the interface;
    - every call that leaves [run_experiment] is recorded, in order, in a
      trace of [Event]s, together with the value it returned.

    The SNG optimizer step and the learning-rate search are not part of
    [src/]; the modules [SNG] and [LRSearch] follow the specification.

    The file has the definitions first, then the facts about programs and
    traces, then the properties of the training loop, of the main script,
    of the configuration, of the search and of the SNG step. *)

From Stdlib Require Import ZArith List String Bool Lia QArith Reals Lra.
From Stdlib Require Import DecimalString Qminmax.
Import ListNotations.

Local Open Scope string_scope.
Local Open Scope Z_scope.

(** ** The hyperparameter dictionary *)

Section Config.

Variable scalar : Type.

(** The nested dictionary [hparams["lr_search"]]; its key ["num_epochs"]
    is the field [lr_num_epochs]. *)
Record LrSearch := mkLrSearch {
  lr_min : option scalar;
  lr_max : option scalar;
  num_steps : Z;
  lr_num_epochs : Z
}.

(** The dictionary [hparams] (main.py, lines 87-107). *)
Record HParams := mkHParams {
  dataset : string;
  layer_sizes : list Z;
  lr_search : LrSearch;
  step_size : option scalar;
  num_epochs : Z;
  batch_size : Z;
  num_targets : Z;
  num_workers : Z;
  stats_every_num_epochs : Z;
  optimizer : option string;
  device : string
}.

(** [hparams["step_size"] = v] *)
Definition set_step_size (v : option scalar) (hp : HParams) : HParams :=
  mkHParams (dataset hp) (layer_sizes hp) (lr_search hp) v (num_epochs hp)
    (batch_size hp) (num_targets hp) (num_workers hp)
    (stats_every_num_epochs hp) (optimizer hp) (device hp).

(** [hparams.update({"optimizer": v})] *)
Definition update_optimizer (v : string) (hp : HParams) : HParams :=
  mkHParams (dataset hp) (layer_sizes hp) (lr_search hp) (step_size hp)
    (num_epochs hp) (batch_size hp) (num_targets hp) (num_workers hp)
    (stats_every_num_epochs hp) (Some v) (device hp).

(** [hparams["lr_search"].update({"lr_min": lo, "lr_max": hi})] *)
Definition update_bracket (lo hi : scalar) (hp : HParams) : HParams :=
  mkHParams (dataset hp) (layer_sizes hp)
    (mkLrSearch (Some lo) (Some hi) (num_steps (lr_search hp))
       (lr_num_epochs (lr_search hp)))
    (step_size hp) (num_epochs hp) (batch_size hp) (num_targets hp)
    (num_workers hp) (stats_every_num_epochs hp) (optimizer hp) (device hp).

(** The dictionary as Python sees it: keys in the order of the literal,
    values tagged with their Python type. *)
#[local] Set Warnings "-register-all".
Inductive Value :=
| VNone
| VInt (z : Z)
| VFloat (x : scalar)
| VStr (s : string)
| VList (l : list Z)
| VDict (d : list (string * Value)).

Definition Dict := list (string * Value).

Definition opt_value {A} (f : A -> Value) (o : option A) : Value :=
  match o with Some a => f a | None => VNone end.

Definition lr_search_to_dict (ls : LrSearch) : Dict :=
  [ ("lr_min", opt_value VFloat (lr_min ls));
    ("lr_max", opt_value VFloat (lr_max ls));
    ("num_steps", VInt (num_steps ls));
    ("num_epochs", VInt (lr_num_epochs ls)) ].

Definition to_dict (hp : HParams) : Dict :=
  [ ("dataset", VStr (dataset hp));
    ("layer_sizes", VList (layer_sizes hp));
    ("lr_search", VDict (lr_search_to_dict (lr_search hp)));
    ("step_size", opt_value VFloat (step_size hp));
    ("num_epochs", VInt (num_epochs hp));
    ("batch_size", VInt (batch_size hp));
    ("num_targets", VInt (num_targets hp));
    ("num_workers", VInt (num_workers hp));
    ("stats_every_num_epochs", VInt (stats_every_num_epochs hp));
    ("optimizer", opt_value VStr (optimizer hp));
    ("device", VStr (device hp)) ].

(** [d[k]], with [None] for a missing key. *)
Fixpoint dict_get (d : Dict) (k : string) : option Value :=
  match d with
  | [] => None
  | (k', v) :: d' => if String.eqb k k' then Some v else dict_get d' k
  end.

(** [d[k1][k2]...] *)
Fixpoint dict_get_path (v : Value) (path : list string) : option Value :=
  match path with
  | [] => Some v
  | k :: path' =>
      match v with
      | VDict d =>
          match dict_get d k with
          | Some v' => dict_get_path v' path'
          | None => None
          end
      | _ => None
      end
  end.

(** The paths of the entries that are not dictionaries themselves; the
    configuration has one level of nesting. *)
Definition leaf_paths (d : Dict) : list (list string) :=
  flat_map (fun kv =>
    match snd kv with
    | VDict d' => map (fun kv' => [fst kv; fst kv']) d'
    | _ => [[fst kv]]
    end) d.

End Config.

Arguments mkLrSearch {scalar}.
Arguments lr_min {scalar}.
Arguments lr_max {scalar}.
Arguments num_steps {scalar}.
Arguments lr_num_epochs {scalar}.
Arguments mkHParams {scalar}.
Arguments dataset {scalar}.
Arguments layer_sizes {scalar}.
Arguments lr_search {scalar}.
Arguments step_size {scalar}.
Arguments num_epochs {scalar}.
Arguments batch_size {scalar}.
Arguments num_targets {scalar}.
Arguments num_workers {scalar}.
Arguments stats_every_num_epochs {scalar}.
Arguments optimizer {scalar}.
Arguments device {scalar}.
Arguments set_step_size {scalar}.
Arguments update_optimizer {scalar}.
Arguments update_bracket {scalar}.
Arguments VNone {scalar}.
Arguments VInt {scalar}.
Arguments VFloat {scalar}.
Arguments VStr {scalar}.
Arguments VList {scalar}.
Arguments VDict {scalar}.
Arguments to_dict {scalar}.
Arguments lr_search_to_dict {scalar}.
Arguments dict_get {scalar}.
Arguments dict_get_path {scalar}.
Arguments leaf_paths {scalar}.

(** The configuration items listed by section 6 of the specification. *)
Inductive ConfigItem :=
| CfgStepSize | CfgNumEpochs | CfgBatchSize | CfgShardCount | CfgClipBound
| CfgEpsilon | CfgLrMin | CfgLrMax | CfgNumCandidates | CfgTrialEpochs
| CfgDevice.

Definition all_config_items : list ConfigItem :=
  [ CfgStepSize; CfgNumEpochs; CfgBatchSize; CfgShardCount; CfgClipBound;
    CfgEpsilon; CfgLrMin; CfgLrMax; CfgNumCandidates; CfgTrialEpochs;
    CfgDevice ].

Definition path_eqb (p q : list string) : bool :=
  if list_eq_dec string_dec p q then true else false.

(** What each key of the dictionary of main.py holds, in the vocabulary of
    the specification; [None] for the keys the specification's list does
    not mention (dataset, layer sizes, targets, workers, cadence,
    optimizer). *)
Definition designates (path : list string) : option ConfigItem :=
  if path_eqb path ["step_size"] then Some CfgStepSize
  else if path_eqb path ["num_epochs"] then Some CfgNumEpochs
  else if path_eqb path ["batch_size"] then Some CfgBatchSize
  else if path_eqb path ["lr_search"; "lr_min"] then Some CfgLrMin
  else if path_eqb path ["lr_search"; "lr_max"] then Some CfgLrMax
  else if path_eqb path ["lr_search"; "num_steps"] then Some CfgNumCandidates
  else if path_eqb path ["lr_search"; "num_epochs"] then Some CfgTrialEpochs
  else if path_eqb path ["device"] then Some CfgDevice
  else None.

Definition ConfigItem_eqb (a b : ConfigItem) : bool :=
  match a, b with
  | CfgStepSize, CfgStepSize | CfgNumEpochs, CfgNumEpochs
  | CfgBatchSize, CfgBatchSize | CfgShardCount, CfgShardCount
  | CfgClipBound, CfgClipBound | CfgEpsilon, CfgEpsilon
  | CfgLrMin, CfgLrMin | CfgLrMax, CfgLrMax
  | CfgNumCandidates, CfgNumCandidates | CfgTrialEpochs, CfgTrialEpochs
  | CfgDevice, CfgDevice => true
  | _, _ => false
  end.

(** The dictionary has a field for the item: one of its keys holds it. *)
Definition has_field {scalar} (d : Dict scalar) (item : ConfigItem) : bool :=
  existsb (fun p =>
    match designates p with
    | Some i => ConfigItem_eqb i item
    | None => false
    end) (leaf_paths d).

(** ** The collaborators of [main.py] *)

(** The types of the values [run_experiment] passes around without
    looking inside them. *)
Class Carriers (scalar : Type) := {
  inputs : Type;        (* [x] of a batch *)
  labels : Type;        (* [y] of a batch, as the loader yields it *)
  onehot : Type;        (* [one_hot(y, num_targets)] *)
  model : Type;         (* the state of a [Model] object *)
  step_value : Type;    (* what [model.step] returns *)
  data_server : Type;   (* a [DataServer] object *)
  dataloader : Type;    (* a generator of batches *)
  world : Type          (* everything else: clock, random state, files *)
}.

Section Events.

Context {scalar : Type} {C : Carriers scalar}.

(** One constructor per call that leaves [run_experiment] or the main
    script, with the arguments of the call and, for a call whose value is
    used, that value. *)
Inductive Event :=
| EvSetRandomSeeds (seed : Z)
| EvOpen (name mode : string)
| EvJaxConfigUpdate (key value : string)
| EvLearningRateSearch (hp : HParams scalar) (best_lr : scalar)
| EvPrint (msg : string)
| EvPrintJson (d : Dict scalar)
| EvDataServer (hp : HParams scalar) (ds : data_server)
| EvModel (hp : HParams scalar) (m : model)
| EvSummaryWriter (comment : string)
| EvAddInputSamples (dl : dataloader) (tag : string)
| EvIterate (dl : dataloader) (batches : list (inputs * labels))
| EvStep (m : model) (x : inputs) (y : onehot) (lr : scalar)
| EvCompLossAccuracy (m : model) (dl : dataloader) (loss acc : scalar)
| EvAddScalar (tag : string) (value : scalar) (global_step : Z)
| EvFileWrite (text : string)
| EvFileFlush
| EvWriterClose
| EvFileClose.

End Events.

Arguments Event {scalar} C.

(** The collaborators themselves. A call that reads or changes the outside
    ([world]) takes it and gives it back; [Model_step] acts on the state of
    the model object and returns a value beside it.

    What their types assume, after the specification: a collaborator that
    is given [hparams] reads the dictionary and does not update it (the
    only visible effect of the search is the scalar it returns, section
    4.5); [comp_loss_accuracy] leaves the model as it is (the evaluator is
    pure, section 4.4); [model.step] depends on the state of the model
    object and on its arguments only; a pass over a loader yields finitely
    many batches (section 6), which do not depend on the steps made during
    the pass. *)
Class Externals {scalar : Type} (C : Carriers scalar) := {
  (* float literals, [a - b], [str(a)] and [f"{a:.nf}"] *)
  float_literal : Q -> scalar;
  float_sub : scalar -> scalar -> scalar;
  float_str : scalar -> string;
  float_fixed : nat -> scalar -> string;
  (* sngrad.utils.one_hot *)
  one_hot : labels -> Z -> onehot;
  (* sngrad.lr_search.learning_rate_search(hparams) *)
  learning_rate_search : HParams scalar -> world -> scalar * world;
  (* sngrad.dataloader.DataServer(hparams) and its two loaders *)
  DataServer : HParams scalar -> world -> data_server * world;
  get_training_dataloader : data_server -> dataloader;
  get_test_dataloader : data_server -> dataloader;
  (* one pass over a loader: the batches it yields *)
  iterate : dataloader -> world -> list (inputs * labels) * world;
  (* sngrad.model.Model(hparams) and model.step(x, y, step_size): the
     state of the object after the call, and the value of the call *)
  Model : HParams scalar -> world -> model * world;
  Model_step : model -> inputs -> onehot -> scalar -> model * step_value;
  (* sngrad.utils.comp_loss_accuracy(model, data_generator) *)
  comp_loss_accuracy : model -> dataloader -> world -> (scalar * scalar) * world;
  (* time.time() *)
  time_time : world -> scalar * world;
  (* what a recorded call does to the outside *)
  effect : Event C -> world -> world
}.

(** ** Programs: a store, a trace and exceptions *)

Section Program.

Context {scalar : Type} {C : Carriers scalar} {E : Externals C}.

(** The dictionary object [hparams] is shared by the main script and both
    calls of [run_experiment]: it lives in the store. *)
Record Store := mkStore {
  hparams : HParams scalar;
  the_world : world
}.

Inductive Exn := ZeroDivisionError.

Inductive Outcome (A : Type) :=
| Returned (a : A)
| Raised (e : Exn).

Record Result (A : Type) := mkResult {
  outcome : Outcome A;
  final : Store;
  events : list (Event C)
}.

Definition Prog (A : Type) : Type := Store -> Result A.

Definition ret {A} (a : A) : Prog A :=
  fun s => mkResult A (Returned A a) s [].

Definition raise {A} (e : Exn) : Prog A :=
  fun s => mkResult A (Raised A e) s [].

(** The events [tr] happened before the run that gave [r]. *)
Definition after {A} (tr : list (Event C)) (r : Result A) : Result A :=
  match r with
  | mkResult _ o s tr' => mkResult A o s (tr ++ tr')
  end.

(** [p] then [f]: an exception of [p] ends the run. *)
Definition bind {A B} (p : Prog A) (f : A -> Prog B) : Prog B :=
  fun s =>
    match p s with
    | mkResult _ (Returned _ a) s' tr => after tr (f a s')
    | mkResult _ (Raised _ e) s' tr => mkResult B (Raised B e) s' tr
    end.

End Program.

Arguments Returned {A}.
Arguments Raised {A}.
Arguments mkResult {scalar C A}.
Arguments outcome {scalar C A}.
Arguments final {scalar C A}.
Arguments events {scalar C A}.

Declare Scope prog_scope.
Delimit Scope prog_scope with prog.
Notation "x <- p ;; q" := (bind p (fun x => q))
  (at level 61, p at next level, right associativity) : prog_scope.
Notation "p ;; q" := (bind p (fun _ => q))
  (at level 61, right associativity) : prog_scope.

Section RunExperiment.

Context {scalar : Type} {C : Carriers scalar} {E : Externals C}.

Local Open Scope prog_scope.

(** A call made for its effect. *)
Definition emit (ev : Event C) : Prog unit :=
  fun s => mkResult (Returned tt) (mkStore (hparams s) (effect ev (the_world s))) [ev].

(** A call made for its value; [ev] records it with the value. *)
Definition call {A} (f : world -> A * world) (ev : A -> Event C) : Prog A :=
  fun s =>
    let r := f (the_world s) in
    mkResult (Returned (fst r)) (mkStore (hparams s) (snd r)) [ev (fst r)].

(** [time.time()] *)
Definition now : Prog scalar :=
  fun s =>
    let r := time_time (the_world s) in
    mkResult (Returned (fst r)) (mkStore (hparams s) (snd r)) [].

(** Reading and updating the dictionary object. *)
Definition get_hparams : Prog (HParams scalar) :=
  fun s => mkResult (Returned (hparams s)) s [].

Definition modify_hparams (f : HParams scalar -> HParams scalar) : Prog unit :=
  fun s => mkResult (Returned tt) (mkStore (f (hparams s)) (the_world s)) [].

(** [for a in l: b = f(b, a)] *)
Fixpoint foldM {A B} (f : B -> A -> Prog B) (l : list A) (b : B) : Prog B :=
  match l with
  | [] => ret b
  | a :: l' => b' <- f b a ;; foldM f l' b'
  end.

(** [range(n)] *)
Definition range (n : Z) : list Z :=
  map Z.of_nat (seq 0 (Z.to_nat n)).

(** [a % b] on Python integers *)
Definition py_mod (a b : Z) : Prog Z :=
  if b =? 0 then raise ZeroDivisionError else ret (a mod b).

(** [str(v)] for an integer, and for a value that may be [None] *)
Definition int_str (z : Z) : string := NilZero.string_of_int (Z.to_int z).

Definition opt_str (o : option string) : string :=
  match o with Some s => s | None => "None" end.

Definition newline : string := String (Ascii.ascii_of_nat 10) EmptyString.

(** The body of [for x, y in training_generator] (lines 59-61): the
    labels are one-hot encoded, [model.step] is called on the model object
    and its value is dropped. *)
Definition train_batch (lr : scalar) (targets : Z)
    (m : model) (b : inputs * labels) : Prog model :=
  let x := fst b in
  let y := one_hot (snd b) targets in
  emit (EvStep m x y lr) ;;
  ret (fst (Model_step m x y lr)).

(** The message of line 76. *)
Definition message (epoch : Z) (epoch_time training_loss test_loss
    training_accuracy test_accuracy : scalar) : string :=
  int_str epoch ++ " " ++ float_fixed 2 epoch_time
    ++ " " ++ float_fixed 4 training_loss
    ++ " " ++ float_fixed 4 test_loss
    ++ " " ++ float_fixed 4 training_accuracy
    ++ " " ++ float_fixed 4 test_accuracy.

(** Lines 68-79: the statistics of an epoch on the cadence. The
    [np.array(...)] around a value handed to the sink changes its
    representation only and is left out. *)
Definition write_stats (training_generator test_generator : dataloader)
    (m : model) (epoch : Z) (epoch_time : scalar) : Prog unit :=
  train <- call (comp_loss_accuracy m training_generator)
             (fun r => EvCompLossAccuracy m training_generator (fst r) (snd r)) ;;
  test <- call (comp_loss_accuracy m test_generator)
            (fun r => EvCompLossAccuracy m test_generator (fst r) (snd r)) ;;
  emit (EvAddScalar "Accuracy/train" (snd train) epoch) ;;
  emit (EvAddScalar "Accuracy/test" (snd test) epoch) ;;
  emit (EvAddScalar "Loss/train" (fst train) epoch) ;;
  emit (EvAddScalar "Loss/test" (fst test) epoch) ;;
  let msg := message epoch epoch_time (fst train) (fst test) (snd train) (snd test) in
  emit (EvFileWrite (msg ++ newline)) ;;
  emit EvFileFlush ;;
  emit (EvPrint msg).

(** The body of [for epoch in range(num_epochs)] (lines 57-79); the pass
    over [training_generator] is recorded with the batches it yields,
    before the steps on them. *)
Definition run_epoch (training_generator test_generator : dataloader)
    (lr : scalar) (targets cadence : Z) (m : model) (epoch : Z) : Prog model :=
  start_time <- now ;;
  batches <- call (iterate training_generator) (EvIterate training_generator) ;;
  m' <- foldM (train_batch lr targets) batches m ;;
  end_time <- now ;;
  let epoch_time := float_sub end_time start_time in
  emit (EvAddScalar "Epoch_time" epoch_time epoch) ;;
  r <- py_mod (epoch + 1) cadence ;;
  (if r =? 0
   then write_stats training_generator test_generator m' epoch epoch_time
   else ret tt) ;;
  ret m'.

(** Lines 34-37: the learning-rate search, when no step size is given;
    the rate found is written into the dictionary. The value is the step
    size [hparams["step_size"]] of line 40. *)
Definition choose_step_size : Prog scalar :=
  hp <- get_hparams ;;
  match step_size hp with
  | None =>
      best_lr <- call (learning_rate_search hp) (EvLearningRateSearch hp) ;;
      emit (EvPrint ("best_lr = " ++ float_str best_lr)) ;;
      modify_hparams (set_step_size (Some best_lr)) ;;
      ret best_lr
  | Some lr => ret lr
  end.

(** [run_experiment(hparams)] (lines 23-82). *)
Definition run_experiment : Prog unit :=
  emit (EvSetRandomSeeds 420) ;;
  hp0 <- get_hparams ;;
  emit (EvOpen (opt_str (optimizer hp0) ++ "_training.txt") "w") ;;
  (if String.eqb (device hp0) "cpu"
   then emit (EvJaxConfigUpdate "jax_platform_name" "cpu")
   else ret tt) ;;
  lr <- choose_step_size ;;
  hp <- get_hparams ;;
  ds <- call (DataServer hp) (EvDataServer hp) ;;
  let training_generator := get_training_dataloader ds in
  let test_generator := get_test_dataloader ds in
  m <- call (Model hp) (EvModel hp) ;;
  emit (EvSummaryWriter ("_training_" ++ opt_str (optimizer hp))) ;;
  emit (EvAddInputSamples training_generator "test") ;;
  foldM (run_epoch training_generator test_generator lr
           (num_targets hp) (stats_every_num_epochs hp))
        (range (num_epochs hp)) m ;;
  emit EvWriterClose ;;
  emit EvFileClose.

(** The dictionary literal of the main script (lines 87-107). *)
Definition hparams_literal : HParams scalar := {|
  dataset := "cifar10";
  layer_sizes := [3 * 32 ^ 2; 512; 512; 10];
  lr_search := {| lr_min := None; lr_max := None; num_steps := 40; lr_num_epochs := 2 |};
  step_size := None;
  num_epochs := 100;
  batch_size := 256;
  num_targets := 10;
  num_workers := 4;
  stats_every_num_epochs := 10;
  optimizer := None;
  device := "tpu"
|}.

(** Lines 109-113 and 115-119: one experiment of the main script. *)
Definition experiment (title opt : string) : Prog unit :=
  emit (EvPrint title) ;;
  modify_hparams (update_optimizer opt) ;;
  modify_hparams (update_bracket (float_literal (1 # 2)) (float_literal 2)) ;;
  hp <- get_hparams ;;
  emit (EvPrintJson (to_dict hp)) ;;
  run_experiment.

(** The main script (lines 85-119), started in the world [w]. *)
Definition main_script : Prog unit :=
  experiment "Experiment SGD" "sgd" ;;
  experiment "Experiment SNG" "sng".

Definition main (w : world) : Result unit :=
  main_script (mkStore hparams_literal w).

End RunExperiment.

(** ** Reading a trace *)

Section Observations.

Context {scalar : Type} {C : Carriers scalar}.

(** The calls of [model.step]: the state of the model object when the
    call is made, and its three arguments. *)
Record StepCall := mkStepCall {
  call_model : model;
  call_x : inputs;
  call_y : onehot;
  call_lr : scalar
}.

Definition step_calls (tr : list (Event C)) : list StepCall :=
  flat_map (fun ev =>
    match ev with
    | EvStep m x y lr => [mkStepCall m x y lr]
    | _ => []
    end) tr.

(** The calls of [learning_rate_search], with the rate returned. *)
Definition search_calls (tr : list (Event C)) : list (HParams scalar * scalar) :=
  flat_map (fun ev =>
    match ev with
    | EvLearningRateSearch hp best => [(hp, best)]
    | _ => []
    end) tr.

(** The calls of [jax.config.update]. *)
Definition jax_config_updates (tr : list (Event C)) : list (string * string) :=
  flat_map (fun ev =>
    match ev with
    | EvJaxConfigUpdate k v => [(k, v)]
    | _ => []
    end) tr.

(** The passes over a loader made by a [for] loop of [run_experiment]. *)
Definition passes (tr : list (Event C)) : list (dataloader * list (inputs * labels)) :=
  flat_map (fun ev =>
    match ev with
    | EvIterate dl bs => [(dl, bs)]
    | _ => []
    end) tr.

(** The training activity of a trace: the passes and the steps, in order. *)
Inductive TrainEvent :=
| Pass (bs : list (inputs * labels))
| Step (x : inputs) (y : onehot).

Definition training_view (tr : list (Event C)) : list TrainEvent :=
  flat_map (fun ev =>
    match ev with
    | EvIterate _ bs => [Pass bs]
    | EvStep _ x y _ => [Step x y]
    | _ => []
    end) tr.

(** What the metrics sink receives under one tag: (value, step index). *)
Definition scalars_of (tag : string) (tr : list (Event C)) : list (scalar * Z) :=
  flat_map (fun ev =>
    match ev with
    | EvAddScalar t v k => if String.eqb t tag then [(v, k)] else []
    | _ => []
    end) tr.

(** The tags the metrics sink receives, in order. *)
Definition scalar_tags (tr : list (Event C)) : list string :=
  flat_map (fun ev =>
    match ev with
    | EvAddScalar t _ _ => [t]
    | _ => []
    end) tr.

(** The loaders on which the model is evaluated by
    [comp_loss_accuracy], in order. *)
Definition evaluations (tr : list (Event C)) : list dataloader :=
  flat_map (fun ev =>
    match ev with
    | EvCompLossAccuracy _ dl _ _ => [dl]
    | _ => []
    end) tr.

(** What is written to the run log, in order. *)
Definition file_writes (tr : list (Event C)) : list string :=
  flat_map (fun ev =>
    match ev with
    | EvFileWrite text => [text]
    | _ => []
    end) tr.

(** The events of the three phases around the epoch loop. *)
Definition is_init_event (ev : Event C) : bool :=
  match ev with
  | EvSetRandomSeeds _ | EvOpen _ _ | EvJaxConfigUpdate _ _ => true
  | _ => false
  end.

Definition is_done_event (ev : Event C) : bool :=
  match ev with
  | EvWriterClose | EvFileClose => true
  | _ => false
  end.

(** The events of the epoch loop and of the construction of the objects
    it uses (data server, model, summary writer). *)
Definition is_run_event (ev : Event C) : bool :=
  match ev with
  | EvDataServer _ _ | EvModel _ _ | EvSummaryWriter _ | EvAddInputSamples _ _
  | EvIterate _ _ | EvStep _ _ _ _ | EvCompLossAccuracy _ _ _ _
  | EvAddScalar _ _ _ | EvFileWrite _ | EvFileFlush | EvPrint _ => true
  | _ => false
  end.

End Observations.

(** ** Epochs and the cadence *)

(** The tags of the evaluation results. *)
Definition stat_tags : list string :=
  ["Accuracy/train"; "Accuracy/test"; "Loss/train"; "Loss/test"].

(** [a] is a multiple of [c]. *)
Definition is_multiple (c a : Z) : bool :=
  if c =? 0 then a =? 0 else a mod c =? 0.

(** The epochs (0-based, as the loop variable) whose 1-based index is a
    multiple of the cadence. *)
Definition cadence_epochs (n c : Z) : list Z :=
  filter (fun e => is_multiple c (e + 1)) (range n).

(** The epochs whose body is entered: all of them, or only the first when
    the cadence is 0 and the remainder of line 66 raises. *)
Definition entered_epochs (n c : Z) : list Z :=
  if c =? 0 then firstn 1 (range n) else range n.

Section Blocks.

Context {scalar : Type} {C : Carriers scalar} {E : Externals C}.

(** One line of the run log. *)
Record StatRecord := mkStatRecord {
  rec_epoch : Z;
  rec_epoch_time : scalar;
  rec_train_loss : scalar;
  rec_test_loss : scalar;
  rec_train_accuracy : scalar;
  rec_test_accuracy : scalar
}.

Definition record_line (r : StatRecord) : string :=
  (message (rec_epoch r) (rec_epoch_time r) (rec_train_loss r) (rec_test_loss r)
     (rec_train_accuracy r) (rec_test_accuracy r) ++ newline)%string.

(** What an epoch on the cadence does after its last batch: the epoch
    time goes to the sink, the model [m] is evaluated on the training
    loader and on the test loader, the four results go to the sink, and
    the record is written. *)
Definition stats_block (training_generator test_generator : dataloader)
    (m : model) (r : StatRecord) : list (Event C) :=
  [ EvAddScalar "Epoch_time" (rec_epoch_time r) (rec_epoch r);
    EvCompLossAccuracy m training_generator (rec_train_loss r) (rec_train_accuracy r);
    EvCompLossAccuracy m test_generator (rec_test_loss r) (rec_test_accuracy r);
    EvAddScalar "Accuracy/train" (rec_train_accuracy r) (rec_epoch r);
    EvAddScalar "Accuracy/test" (rec_test_accuracy r) (rec_epoch r);
    EvAddScalar "Loss/train" (rec_train_loss r) (rec_epoch r);
    EvAddScalar "Loss/test" (rec_test_loss r) (rec_epoch r);
    EvFileWrite (record_line r);
    EvFileFlush;
    EvPrint (message (rec_epoch r) (rec_epoch_time r) (rec_train_loss r)
               (rec_test_loss r) (rec_train_accuracy r) (rec_test_accuracy r)) ].

(** Each call of [model.step] finds the model object in the state the
    previous call left it in. *)
Fixpoint threaded (m : model) (calls : list StepCall) : Prop :=
  match calls with
  | [] => True
  | c :: rest =>
      call_model c = m /\
      threaded (fst (Model_step (call_model c) (call_x c) (call_y c) (call_lr c))) rest
  end.

(** Each call of [model.step] is made on the parameters the previous call
    returned ([params_of] reads them off the returned value). *)
Fixpoint holds_returned (params_of : step_value -> model)
    (m : model) (calls : list StepCall) : Prop :=
  match calls with
  | [] => True
  | c :: rest =>
      call_model c = m /\
      holds_returned params_of
        (params_of (snd (Model_step (call_model c) (call_x c) (call_y c) (call_lr c)))) rest
  end.

(** The events of the four phases of a run: before the search, the
    search, the construction of the objects of the epoch loop, and the
    end. *)
Definition init_trace (hp : HParams scalar) : list (Event C) :=
  [ EvSetRandomSeeds 420; EvOpen (opt_str (optimizer hp) ++ "_training.txt") "w" ]
  ++ (if String.eqb (device hp) "cpu"
      then [EvJaxConfigUpdate "jax_platform_name" "cpu"] else []).

Definition search_trace (hp : HParams scalar) (best : scalar) : list (Event C) :=
  [ EvLearningRateSearch hp best; EvPrint ("best_lr = " ++ float_str best) ].

(** Without a configured step size the search runs and its result is
    the step size; otherwise nothing happens. *)
Definition search_part (hp : HParams scalar) (best : scalar) : list (Event C) :=
  match step_size hp with
  | None => search_trace hp best
  | Some _ => []
  end.

Definition chosen_step_size (hp : HParams scalar) (best : scalar) : scalar :=
  match step_size hp with
  | None => best
  | Some lr => lr
  end.

Definition hparams_after (hp : HParams scalar) (best : scalar) : HParams scalar :=
  match step_size hp with
  | None => set_step_size (Some best) hp
  | Some _ => hp
  end.

Definition setup_trace (hp : HParams scalar) (ds : data_server) (m : model)
    : list (Event C) :=
  [ EvDataServer hp ds; EvModel hp m;
    EvSummaryWriter ("_training_" ++ opt_str (optimizer hp));
    EvAddInputSamples (get_training_dataloader ds) "test" ].

Definition done_trace {A} (o : Outcome A) : list (Event C) :=
  match o with
  | Returned _ => [EvWriterClose; EvFileClose]
  | Raised _ => []
  end.

(** The calls of [model.step] of one pass over the batches [bs], from the
    model state [m], and the state of the model object after them. *)
Fixpoint steps_trace (lr : scalar) (targets : Z) (m : model)
    (bs : list (inputs * labels)) : list (Event C) :=
  match bs with
  | [] => []
  | b :: bs' =>
      EvStep m (fst b) (one_hot (snd b) targets) lr
      :: steps_trace lr targets
           (fst (Model_step m (fst b) (one_hot (snd b) targets) lr)) bs'
  end.

Fixpoint trained (lr : scalar) (targets : Z) (m : model)
    (bs : list (inputs * labels)) : model :=
  match bs with
  | [] => m
  | b :: bs' =>
      trained lr targets
        (fst (Model_step m (fst b) (one_hot (snd b) targets) lr)) bs'
  end.

(** The trace of one epoch and how its body ends. *)
Inductive epoch_trace (tg teg : dataloader) (lr : scalar) (targets cadence : Z)
    (m : model) (e : Z) : list (Event C) -> Outcome model -> Prop :=
| epoch_plain bs t :
    cadence <> 0 -> (e + 1) mod cadence <> 0 ->
    epoch_trace tg teg lr targets cadence m e
      ([EvIterate tg bs] ++ steps_trace lr targets m bs
         ++ [EvAddScalar "Epoch_time" t e])
      (Returned (trained lr targets m bs))
| epoch_stats bs r :
    cadence <> 0 -> (e + 1) mod cadence = 0 -> rec_epoch r = e ->
    epoch_trace tg teg lr targets cadence m e
      ([EvIterate tg bs] ++ steps_trace lr targets m bs
         ++ stats_block tg teg (trained lr targets m bs) r)
      (Returned (trained lr targets m bs))
| epoch_raise bs t :
    cadence = 0 ->
    epoch_trace tg teg lr targets cadence m e
      ([EvIterate tg bs] ++ steps_trace lr targets m bs
         ++ [EvAddScalar "Epoch_time" t e])
      (Raised ZeroDivisionError).

(** The trace of the epoch loop over the epochs [es], from the model
    state [m]: it stops at the first epoch that raises. *)
Inductive epochs_trace (tg teg : dataloader) (lr : scalar) (targets cadence : Z)
    : model -> list Z -> list (Event C) -> Outcome model -> Prop :=
| epochs_nil m :
    epochs_trace tg teg lr targets cadence m [] [] (Returned m)
| epochs_cons m e es tr m' tr' o :
    epoch_trace tg teg lr targets cadence m e tr (Returned m') ->
    epochs_trace tg teg lr targets cadence m' es tr' o ->
    epochs_trace tg teg lr targets cadence m (e :: es) (tr ++ tr') o
| epochs_raise m e es tr x :
    epoch_trace tg teg lr targets cadence m e tr (Raised x) ->
    epochs_trace tg teg lr targets cadence m (e :: es) tr (Raised x).

(** The same collaborators, except that [model.step] returns [g] of its
    receiver and arguments; its effect on the model object is unchanged. *)
Definition with_step_value
    (g : model -> inputs -> onehot -> scalar -> step_value) : Externals C := {|
  float_literal := float_literal;
  float_sub := float_sub;
  float_str := float_str;
  float_fixed := float_fixed;
  one_hot := one_hot;
  learning_rate_search := learning_rate_search;
  DataServer := DataServer;
  get_training_dataloader := get_training_dataloader;
  get_test_dataloader := get_test_dataloader;
  iterate := iterate;
  Model := Model;
  Model_step := fun m x y lr => (fst (Model_step m x y lr), g m x y lr);
  comp_loss_accuracy := comp_loss_accuracy;
  time_time := time_time;
  effect := effect
|}.

End Blocks.

(** ** The SNG optimizer step *)

(** Modelled from the spec: the optimizers live in [sngrad.model], which is
    not part of [src/]; [main.py] only calls [model.step]. This module
    follows section 4.2 of the specification over the rationals (finite
    values, exact arithmetic); the gradient estimator of section 4.1 is a
    parameter. *)
Module SNG.

Local Open Scope Q_scope.

Definition Tensor := list Q.

(** A tree of (weight, bias) pairs, one per layer. *)
Definition ParameterTree := list (Tensor * Tensor).

(** Elementwise mean and standard deviation of the gradient samples of
    one parameter tensor. *)
Record Statistics := mkStatistics {
  mean : Tensor;
  std : Tensor
}.

Definition GradientStatistics := list (Statistics * Statistics).

Record Config := mkConfig {
  num_shards : Z;
  r_max : Q;
  eps : Q
}.

Inductive Error := ConfigurationError.

(** Clipping to [[lo, hi]]. *)
Definition clip (lo hi x : Q) : Q := Qmin (Qmax x lo) hi.

(** Modelled from the spec: the signal-to-noise ratio of one element,
    [r = mean / (std + eps)], clipped to [[-r_max, r_max]]. *)
Definition ratio (cfg : Config) (g s : Q) : Q :=
  clip (- r_max cfg) (r_max cfg) (g / (s + eps cfg)).

(** [param' = param - step_size * r], elementwise. *)
Definition update_tensor (cfg : Config) (lr : Q) (p : Tensor) (st : Statistics) : Tensor :=
  map (fun e => fst e - lr * ratio cfg (fst (snd e)) (snd (snd e)))
      (combine p (combine (mean st) (std st))).

Definition update_layer (cfg : Config) (lr : Q)
    (e : (Tensor * Tensor) * (Statistics * Statistics)) : Tensor * Tensor :=
  (update_tensor cfg lr (fst (fst e)) (fst (snd e)),
   update_tensor cfg lr (snd (fst e)) (snd (snd e))).

(** The tensor [p'] is the tensor [p] updated with the statistics [st]:
    wherever parameter, mean and deviation are present, the ratio
    [r = mean / (std + eps)] clipped lies in [[-r_max, r_max]] and the new
    parameter is [param - step_size * r]. *)
Definition elementwise (cfg : Config) (lr : Q) (p : Tensor) (st : Statistics)
    (p' : Tensor) : Prop :=
  forall i pi gi si,
    nth_error p i = Some pi ->
    nth_error (mean st) i = Some gi ->
    nth_error (std st) i = Some si ->
    exists r,
      r = clip (- r_max cfg) (r_max cfg) (gi / (si + eps cfg))
      /\ - r_max cfg <= r <= r_max cfg
      /\ nth_error p' i = Some (pi - lr * r).

Section Step.

Variable batch : Type.

(** [estimate(params, batch, num_shards)] of section 4.1. *)
Variable estimate : ParameterTree -> batch -> Z -> GradientStatistics.

(** Modelled from the spec: [step(params, batch, step_size)] of the SNG
    optimizer (section 4.2), whose code is not in [src/]; a shard count of
    at most 1 and a step size that is not positive are configuration
    errors. *)
Definition step (cfg : Config) (params : ParameterTree) (b : batch) (lr : Q)
    : ParameterTree + Error :=
  if (num_shards cfg <=? 1)%Z then inr ConfigurationError
  else if Qle_bool lr 0 then inr ConfigurationError
  else inl (map (update_layer cfg lr)
                (combine params (estimate params b (num_shards cfg)))).

End Step.

End SNG.

(** ** The learning-rate search *)

(** Modelled from the spec: [learning_rate_search] lives in
    [sngrad.lr_search], which is not part of [src/]; [main.py] only calls
    it. This module follows section 4.5 of the specification over the real
    numbers; a trial (fresh model, [trial_epochs] epochs, validation loss)
    is a parameter that gives the loss, or nothing when it is not finite. *)
Module LRSearch.

Local Open Scope R_scope.

Inductive SearchResult :=
| Best (lr : R)
| ConfigurationError
| NoViableRate.

(** The [i]-th of [n] candidates spaced evenly on a logarithmic scale. *)
Definition candidate (lo hi : R) (n i : nat) : R :=
  lo * Rpower (hi / lo) (INR i / INR (n - 1)).

Definition candidates (lo hi : R) (n : nat) : list R :=
  map (candidate lo hi n) (seq 0 n).

Section Search.

Variable trial_loss : R -> Z -> option R.

(** The best candidate so far with its loss, after the trial of [lr]: a
    candidate takes over only with a strictly lower loss, so of two with
    the same loss the smaller step size stays. *)
Definition better (trial_epochs : Z) (best : option (R * R)) (lr : R) : option (R * R) :=
  match trial_loss lr trial_epochs with
  | None => best
  | Some l =>
      match best with
      | None => Some (lr, l)
      | Some (_, lb) => if Rlt_dec l lb then Some (lr, l) else best
      end
  end.

Definition select (cands : list R) (trial_epochs : Z) : option (R * R) :=
  fold_left (better trial_epochs) cands None.

(** Modelled from the spec: [search(lr_min, lr_max, num_candidates,
    trial_epochs)] (section 4.5), whose code is not in [src/]; a violated
    precondition is a configuration error, and a search in which no trial
    has a finite loss fails. *)
Definition search (lo hi : R) (num_candidates trial_epochs : Z) : SearchResult :=
  if Rlt_dec 0 lo then
    if Rlt_dec lo hi then
      if ((0 <? num_candidates) && (0 <? trial_epochs))%Z then
        match select (candidates lo hi (Z.to_nat num_candidates)) trial_epochs with
        | Some (lr, _) => Best lr
        | None => NoViableRate
        end
      else ConfigurationError
    else ConfigurationError
  else ConfigurationError.

End Search.

End LRSearch.

(** What the claims of the specification say, on a trace. *)

Section Readings.

Context {scalar : Type} {C : Carriers scalar} {E : Externals C}.

(** Every scalar the sink receives belongs to an epoch on the cadence. *)
Definition sink_only_on_cadence (c : Z) (tr : list (Event C)) : Prop :=
  forall tag v k, In (EvAddScalar tag v k) tr -> is_multiple c (k + 1) = true.

(** Every step size used by a call of [model.step] lies in the bracket
    of the dictionary, for the order [le] on scalars. *)
Definition steps_in_bracket (le : scalar -> scalar -> Prop)
    (hp : HParams scalar) (tr : list (Event C)) : Prop :=
  forall lo hi, lr_min (lr_search hp) = Some lo -> lr_max (lr_search hp) = Some hi ->
  Forall (fun c => le lo (call_lr c) /\ le (call_lr c) hi) (step_calls tr).

(** The training activity of a trace with the arguments of each call:
    the passes over a loader (the loader and the batches it yields) and
    the calls of [model.step] (inputs, labels, step size), in order. *)
Inductive TrainCall :=
| PassOver (dl : dataloader) (bs : list (inputs * labels))
| StepOn (x : inputs) (y : onehot) (lr : scalar).

Definition training_calls (tr : list (Event C)) : list TrainCall :=
  flat_map (fun ev =>
    match ev with
    | EvIterate dl bs => [PassOver dl bs]
    | EvStep _ x y lr => [StepOn x y lr]
    | _ => []
    end) tr.

(** The training of one epoch whose pass over the loader [tg] yields the
    batches [bs]: the pass, and then one call of [model.step] per batch,
    in the order of the batches, on the inputs of the batch, its labels
    one-hot encoded with [targets] classes, and the step size [lr]. *)
Definition epoch_training (tg : dataloader) (lr : scalar) (targets : Z)
    (bs : list (inputs * labels)) : list TrainCall :=
  PassOver tg bs :: map (fun b => StepOn (fst b) (one_hot (snd b) targets) lr) bs.

(** The trace [tr] trains over the epochs [epochs] with the step size
    [lr]: it makes as many passes as there are epochs, and its training
    activity is, pass after pass, the training of one epoch on the
    batches of the pass. *)
Definition trains_with (tg : dataloader) (lr : scalar) (targets : Z)
    (epochs : list Z) (tr : list (Event C)) : Prop :=
  List.length (passes tr) = List.length epochs
  /\ training_calls tr =
       flat_map (fun p => epoch_training tg lr targets (snd p)) (passes tr).

(** The events of the learning-rate search of [run_experiment]: the call
    and the print of its result. *)
Definition is_search_event (ev : Event C) : bool :=
  match ev with
  | EvLearningRateSearch _ _ | EvPrint _ => true
  | _ => false
  end.

(** The order of the phases that the specification gives for a run: the
    events of INIT, then those of the learning-rate search (none when it
    does not run), then those of the epoch loop with the construction of
    its objects, then DONE, where the summary writer and the run log are
    closed. *)
Definition in_phase_order (tr : list (Event C)) : Prop :=
  exists init search run,
    tr = (init ++ search ++ run ++ [EvWriterClose; EvFileClose])%list
    /\ Forall (fun ev => is_init_event ev = true) init
    /\ Forall (fun ev => is_search_event ev = true) search
    /\ Forall (fun ev => is_run_event ev = true) run.

End Readings.

(** Modelled from the spec: the call of [learning_rate_search] on the
    dictionary [hp] that returned [best] is a search of section 4.5 on the
    bracket, the number of candidates and the trial epochs of [hp], for
    the trials made during that call. *)
Definition specified_search (hp : HParams R) (best : R) : Prop :=
  exists (trial : R -> Z -> option R) (lo hi : R),
    lr_min (lr_search hp) = Some lo
    /\ lr_max (lr_search hp) = Some hi
    /\ LRSearch.search trial lo hi (num_steps (lr_search hp))
         (lr_num_epochs (lr_search hp)) = LRSearch.Best best.

(** The step size [lr] lies in the bracket of the dictionary [hp]. *)
Definition within_bracket (hp : HParams R) (lr : R) : Prop :=
  exists lo hi : R,
    lr_min (lr_search hp) = Some lo
    /\ lr_max (lr_search hp) = Some hi
    /\ (lo <= lr <= hi)%R.

(** ** A small instance of the collaborators *)

Section Toy.

Variable scalar : Type.

(** One input feature and one parameter; the training loader is [true]
    and yields two batches, the test loader is [false] and yields one;
    the world is a counter. *)
Definition toy_carriers : Carriers scalar := {|
  inputs := Z;
  labels := Z;
  onehot := list Z;
  model := scalar;
  step_value := scalar;
  data_server := unit;
  dataloader := bool;
  world := Z
|}.

Variable lit : Q -> scalar.
Variable sub : scalar -> scalar -> scalar.
Variable step_fn : scalar -> Z -> scalar -> scalar * scalar.
Variable search_fn : HParams scalar -> scalar.

Definition toy_one_hot (y n : Z) : list Z :=
  map (fun k => if k =? y then 1 else 0) (range n).

Definition toy_externals : Externals toy_carriers := {|
  float_literal := lit;
  float_sub := sub;
  float_str := fun _ => "<float>";
  float_fixed := fun _ _ => "<float>";
  one_hot := toy_one_hot : @labels _ toy_carriers -> Z -> @onehot _ toy_carriers;
  learning_rate_search := fun hp (w : @world _ toy_carriers) => (search_fn hp, w + 1);
  DataServer := fun _ (w : @world _ toy_carriers) => (tt : @data_server _ toy_carriers, w + 1);
  get_training_dataloader := fun _ => true : @dataloader _ toy_carriers;
  get_test_dataloader := fun _ => false : @dataloader _ toy_carriers;
  iterate := fun (dl : @dataloader _ toy_carriers) (w : @world _ toy_carriers) =>
    ((if dl then [(1, 0); (2, 1)] else [(3, 1)]) : list (@inputs _ toy_carriers * @labels _ toy_carriers), w + 1);
  Model := fun _ (w : @world _ toy_carriers) => (lit 0 : @model _ toy_carriers, w + 1);
  Model_step := fun (m : @model _ toy_carriers) (x : @inputs _ toy_carriers) _ lr =>
    step_fn m x lr : @model _ toy_carriers * @step_value _ toy_carriers;
  comp_loss_accuracy := fun (m : @model _ toy_carriers) _ (w : @world _ toy_carriers) => ((m, m), w + 1);
  time_time := fun (w : @world _ toy_carriers) => (lit (inject_Z w), w + 1);
  effect := fun _ (w : @world _ toy_carriers) => w + 1
|}.

End Toy.

(** The model object updates its parameter in place and [step] returns
    nothing of use. *)
Definition step_in_place (m : Q) (x : Z) (lr : Q) : Q * Q :=
  ((m - lr * inject_Z x)%Q, 0%Q).

(** [step] leaves the model object alone and returns the new parameter. *)
Definition step_pure (m : Q) (x : Z) (lr : Q) : Q * Q :=
  (m, (m - lr * inject_Z x)%Q).

Definition toy_search (hp : HParams Q) : Q :=
  match lr_min (lr_search hp) with Some lo => lo | None => 1%Q end.

Definition toy_in_place : Externals (toy_carriers Q) :=
  toy_externals Q (fun q => q) Qminus step_in_place toy_search.

Definition toy_pure : Externals (toy_carriers Q) :=
  toy_externals Q (fun q => q) Qminus step_pure toy_search.

(** A configuration for the small instance: [epochs] epochs, statistics
    every [cadence] epochs, two classes. *)
Definition toy_hparams (lr : option Q) (epochs cadence : Z) (dev : string) : HParams Q := {|
  dataset := "toy";
  layer_sizes := [1; 2];
  lr_search := {| lr_min := Some (1 # 2)%Q; lr_max := Some 2%Q; num_steps := 4; lr_num_epochs := 1 |};
  step_size := lr;
  num_epochs := epochs;
  batch_size := 1;
  num_targets := 2;
  num_workers := 1;
  stats_every_num_epochs := cadence;
  optimizer := Some "sgd";
  device := dev
|}.

(** The same instance over the real numbers: one epoch, no configured
    step size, and a search over four candidates on [[1/2, 2]]. *)
Definition real_hparams : HParams R := {|
  dataset := "toy";
  layer_sizes := [1; 2];
  lr_search := {| lr_min := Some (1 / 2)%R; lr_max := Some 2%R;
                  num_steps := 4; lr_num_epochs := 1 |};
  step_size := None;
  num_epochs := 1;
  batch_size := 1;
  num_targets := 2;
  num_workers := 1;
  stats_every_num_epochs := 1;
  optimizer := Some "sgd";
  device := "cpu"
|}.

(** A trial whose loss is 1 for a step size below 2 and 0 from 2 on. *)
Definition real_trial (lr : R) (trial_epochs : Z) : option R :=
  if Rlt_dec lr 2 then Some 1%R else Some 0%R.

(** The search of the instance is the search of [LRSearch] with these
    trials, on the bracket, the candidates and the trial epochs of the
    dictionary. *)
Definition real_search (hp : HParams R) : R :=
  match lr_min (lr_search hp), lr_max (lr_search hp) with
  | Some lo, Some hi =>
      match LRSearch.search real_trial lo hi (num_steps (lr_search hp))
              (lr_num_epochs (lr_search hp)) with
      | LRSearch.Best lr => lr
      | _ => 0%R
      end
  | _, _ => 0%R
  end.

Definition toy_real : Externals (toy_carriers R) :=
  toy_externals R Q2R Rminus
    (fun m x lr => ((m - lr * IZR x)%R, 0%R)) real_search.

(** A layer of two weights and one bias, with the statistics of its
    gradient, for the SNG step. *)
Definition sng_config : SNG.Config := SNG.mkConfig 2 1%Q (1 # 100)%Q.

Definition sng_params : SNG.ParameterTree := [([1; 2]%Q, [0]%Q)].

Definition sng_estimate (_ : SNG.ParameterTree) (_ : unit) (_ : Z)
    : SNG.GradientStatistics :=
  [(SNG.mkStatistics [3; -1]%Q [0; 1]%Q, SNG.mkStatistics [1]%Q [1]%Q)].

Definition toy_store (lr : option Q) (epochs cadence : Z) (dev : string)
    : @Store Q (toy_carriers Q) :=
  mkStore (toy_hparams lr epochs cadence dev) (0 : @world _ (toy_carriers Q)).

(** ** Further readings of a trace *)

Section MoreObservations.

Context {scalar : Type} {C : Carriers scalar}.

(** The calls of [open]: (name, mode). *)
Definition opens (tr : list (Event C)) : list (string * string) :=
  flat_map (fun ev =>
    match ev with
    | EvOpen name mode => [(name, mode)]
    | _ => []
    end) tr.

(** The dictionaries given to [DataServer] and to [Model], in order. *)
Definition constructed_with (tr : list (Event C)) : list (HParams scalar) :=
  flat_map (fun ev =>
    match ev with
    | EvDataServer hp _ => [hp]
    | EvModel hp _ => [hp]
    | _ => []
    end) tr.

(** What [print] shows, the dump of the dictionary apart. *)
Definition prints (tr : list (Event C)) : list string :=
  flat_map (fun ev =>
    match ev with
    | EvPrint msg => [msg]
    | _ => []
    end) tr.

(** The calls of [writer.close] and [file.close]. *)
Definition close_calls (tr : list (Event C)) : list (Event C) :=
  filter is_done_event tr.

(** The events the epoch loop can leave. *)
Definition is_loop_event (ev : Event C) : bool :=
  match ev with
  | EvIterate _ _ | EvStep _ _ _ _ | EvCompLossAccuracy _ _ _ _
  | EvAddScalar _ _ _ | EvFileWrite _ | EvFileFlush | EvPrint _ => true
  | _ => false
  end.

End MoreObservations.

Section ModelState.

Context {scalar : Type} {C : Carriers scalar} {E : Externals C}.

(** The state of the model object after the events of a trace, from the
    state [m]: [Model(hparams)] gives a new object, a step acts on it. *)
Fixpoint state_after (m : model) (tr : list (Event C)) : model :=
  match tr with
  | [] => m
  | ev :: tr' =>
      match ev with
      | EvModel _ m' => state_after m' tr'
      | EvStep _ x y lr => state_after (fst (Model_step m x y lr)) tr'
      | _ => state_after m tr'
      end
  end.

(** Every step and every evaluation of the trace is made on the model
    object in the state the events before it leave. *)
Fixpoint consistent (m : model) (tr : list (Event C)) : Prop :=
  match tr with
  | [] => True
  | ev :: tr' =>
      match ev with
      | EvModel _ m' => consistent m' tr'
      | EvStep m' x y lr => m' = m /\ consistent (fst (Model_step m x y lr)) tr'
      | EvCompLossAccuracy m' _ _ _ => m' = m /\ consistent m tr'
      | _ => consistent m tr'
      end
  end.

End ModelState.

(** * Facts *)

Local Open Scope list_scope.

(** ** Running a program step by step *)

Section Steps.

Context {scalar : Type} {C : Carriers scalar} {E : Externals C}.

Lemma after_nil {A} (r : Result A) : after [] r = r.
Proof. destruct r; reflexivity. Qed.

Lemma after_after {A} tr tr' (r : Result A) :
  after tr (after tr' r) = after (tr ++ tr') r.
Proof. destruct r; cbn. now rewrite app_assoc. Qed.

Lemma after_result {A} tr (o : Outcome A) s tr' :
  after tr (mkResult o s tr') = mkResult o s (tr ++ tr').
Proof. reflexivity. Qed.

Lemma bind_ret {A B} (a : A) (f : A -> Prog B) s :
  bind (ret a) f s = f a s.
Proof. unfold bind, ret. apply after_nil. Qed.

Lemma bind_emit {B} ev (f : unit -> Prog B) s :
  bind (emit ev) f s =
  after [ev] (f tt (mkStore (hparams s) (effect ev (the_world s)))).
Proof. reflexivity. Qed.

Lemma bind_call {A B} (g : world -> A * world) ev (f : A -> Prog B) s :
  bind (call g ev) f s =
  after [ev (fst (g (the_world s)))]
    (f (fst (g (the_world s))) (mkStore (hparams s) (snd (g (the_world s))))).
Proof. reflexivity. Qed.

Lemma bind_now {B} (f : scalar -> Prog B) s :
  bind now f s =
  f (fst (time_time (the_world s))) (mkStore (hparams s) (snd (time_time (the_world s)))).
Proof. unfold bind, now. apply after_nil. Qed.

Lemma bind_get_hparams {B} (f : HParams scalar -> Prog B) s :
  bind get_hparams f s = f (hparams s) s.
Proof. unfold bind, get_hparams. apply after_nil. Qed.

Lemma bind_modify_hparams {B} g (f : unit -> Prog B) s :
  bind (modify_hparams g) f s = f tt (mkStore (g (hparams s)) (the_world s)).
Proof. unfold bind, modify_hparams. apply after_nil. Qed.

Lemma bind_when {B} (b : bool) ev (f : unit -> Prog B) s :
  bind (if b then emit ev else ret tt) f s =
  after (if b then [ev] else [])
    (f tt (mkStore (hparams s) (if b then effect ev (the_world s) else the_world s))).
Proof.
  destruct b.
  - apply bind_emit.
  - rewrite bind_ret, after_nil. destruct s; reflexivity.
Qed.

Lemma bind_result {A B} (p : Prog A) (f : A -> Prog B) s a s' tr :
  p s = mkResult (Returned a) s' tr ->
  bind p f s = after tr (f a s').
Proof. unfold bind. now intros ->. Qed.

Lemma bind_raise {A B} (p : Prog A) (f : A -> Prog B) s x s' tr :
  p s = mkResult (Raised x) s' tr ->
  bind p f s = mkResult (Raised x) s' tr.
Proof. unfold bind. now intros ->. Qed.

End Steps.

(** One step of a program: the first call of a sequence is run. *)
Ltac run_step :=
  first [ rewrite bind_emit | rewrite bind_call | rewrite bind_now
        | rewrite bind_get_hparams | rewrite bind_modify_hparams
        | rewrite bind_when | rewrite bind_ret ];
  cbv beta; cbn [hparams the_world].

(** ** Reading a concatenation *)

Section ReadingFacts.

Context {scalar : Type} {C : Carriers scalar}.

(** Every reading of a trace goes through concatenation. *)
Lemma step_calls_app (tr tr' : list (Event C)) :
  step_calls (tr ++ tr') = step_calls tr ++ step_calls tr'.
Proof. apply flat_map_app. Qed.

Lemma search_calls_app (tr tr' : list (Event C)) :
  search_calls (tr ++ tr') = search_calls tr ++ search_calls tr'.
Proof. apply flat_map_app. Qed.

Lemma jax_config_updates_app (tr tr' : list (Event C)) :
  jax_config_updates (tr ++ tr') = jax_config_updates tr ++ jax_config_updates tr'.
Proof. apply flat_map_app. Qed.

Lemma passes_app (tr tr' : list (Event C)) :
  passes (tr ++ tr') = passes tr ++ passes tr'.
Proof. apply flat_map_app. Qed.

Lemma training_view_app (tr tr' : list (Event C)) :
  training_view (tr ++ tr') = training_view tr ++ training_view tr'.
Proof. apply flat_map_app. Qed.

Lemma scalars_of_app tag (tr tr' : list (Event C)) :
  scalars_of tag (tr ++ tr') = scalars_of tag tr ++ scalars_of tag tr'.
Proof. apply flat_map_app. Qed.

Lemma scalar_tags_app (tr tr' : list (Event C)) :
  scalar_tags (tr ++ tr') = scalar_tags tr ++ scalar_tags tr'.
Proof. apply flat_map_app. Qed.

Lemma file_writes_app (tr tr' : list (Event C)) :
  file_writes (tr ++ tr') = file_writes tr ++ file_writes tr'.
Proof. apply flat_map_app. Qed.

Lemma evaluations_app (tr tr' : list (Event C)) :
  evaluations (tr ++ tr') = evaluations tr ++ evaluations tr'.
Proof. apply flat_map_app. Qed.

Lemma training_calls_app (tr tr' : list (Event C)) :
  training_calls (tr ++ tr') = training_calls tr ++ training_calls tr'.
Proof. apply flat_map_app. Qed.

(** Events of the epoch loop are no calls of the search or of the
    device configuration. *)
Lemma run_events_no_search (tr : list (Event C)) :
  Forall (fun ev => is_run_event ev = true) tr -> search_calls tr = [].
Proof.
  induction 1 as [|ev tr Hev _ IH]; [reflexivity|].
  destruct ev; try discriminate Hev; exact IH.
Qed.

Lemma run_events_no_jax (tr : list (Event C)) :
  Forall (fun ev => is_run_event ev = true) tr -> jax_config_updates tr = [].
Proof.
  induction 1 as [|ev tr Hev _ IH]; [reflexivity|].
  destruct ev; try discriminate Hev; exact IH.
Qed.

End ReadingFacts.

Create Rewrite HintDb readings.

#[local] Hint Rewrite @step_calls_app @search_calls_app @jax_config_updates_app
  @passes_app @training_view_app @scalars_of_app @scalar_tags_app
  @file_writes_app @evaluations_app @training_calls_app : readings.

(** ** The cadence *)

Lemma range_bounds n e : In e (range n) <-> 0 <= e < n.
Proof.
  unfold range. rewrite in_map_iff. split.
  - intros (k & <- & Hk). apply in_seq in Hk. lia.
  - intros He. exists (Z.to_nat e). split; [lia|]. apply in_seq. lia.
Qed.

Lemma range_nonpos n : n <= 0 -> range n = [].
Proof.
  intros H. unfold range. replace (Z.to_nat n) with 0%nat by lia. reflexivity.
Qed.

Lemma range_pos n : 0 < n -> exists es, range n = 0 :: es.
Proof.
  intros H. unfold range.
  destruct (Z.to_nat n) as [|k] eqn:Hk; [lia|].
  cbn. eauto.
Qed.

Lemma is_multiple_spec c a : is_multiple c a = true <-> (c | a).
Proof.
  unfold is_multiple. destruct (Z.eqb_spec c 0) as [->|Hc].
  - rewrite Z.eqb_eq. split.
    + intros ->. apply Z.divide_0_r.
    + intros (k & ->). lia.
  - rewrite Z.eqb_eq. apply Z.mod_divide. exact Hc.
Qed.

Lemma filter_none {A} (f : A -> bool) (l : list A) :
  (forall a, In a l -> f a = false) -> filter f l = [].
Proof.
  induction l as [|a l IH]; intros H; [reflexivity|].
  cbn. rewrite (H a (or_introl eq_refl)). apply IH.
  intros b Hb. apply H. now right.
Qed.

Lemma cadence_epochs_filter n c :
  (if c =? 0 then [] else filter (fun e => (e + 1) mod c =? 0) (range n))
  = cadence_epochs n c.
Proof.
  unfold cadence_epochs, is_multiple.
  destruct (Z.eqb_spec c 0) as [->|Hc]; [|reflexivity].
  symmetry. apply filter_none.
  intros e He. apply range_bounds in He. apply Z.eqb_neq. lia.
Qed.

Lemma cadence_epochs_spec n c e :
  In e (cadence_epochs n c) <-> 0 <= e < n /\ (c | e + 1).
Proof.
  unfold cadence_epochs. rewrite filter_In, range_bounds, is_multiple_spec.
  reflexivity.
Qed.

(** ** The loops *)

Section LoopFacts.

Context {scalar : Type} {C : Carriers scalar} {E : Externals C}.

Lemma foldM_train_batch lr targets bs : forall m s,
  exists w,
  foldM (train_batch lr targets) bs m s =
  mkResult (Returned (trained lr targets m bs)) (mkStore (hparams s) w)
    (steps_trace lr targets m bs).
Proof.
  induction bs as [|b bs IH]; intros m s.
  - exists (the_world s). destruct s. reflexivity.
  - cbn [foldM steps_trace trained].
    unfold bind, train_batch. cbn.
    edestruct IH as (w & ->).
    exists w. reflexivity.
Qed.

Lemma run_epoch_trace tg teg lr targets cadence m e s :
  exists o w tr,
  run_epoch tg teg lr targets cadence m e s = mkResult o (mkStore (hparams s) w) tr
  /\ epoch_trace tg teg lr targets cadence m e tr o.
Proof.
  unfold run_epoch, bind. cbn.
  match goal with |- context [foldM _ ?bs m ?s'] =>
    destruct (foldM_train_batch lr targets bs m s') as (w & ->) end.
  cbn.
  unfold py_mod.
  destruct (cadence =? 0) eqn:Hc.
  - cbn. do 3 eexists. split; [reflexivity|].
    apply epoch_raise. lia.
  - apply Z.eqb_neq in Hc. cbn.
    destruct ((e + 1) mod cadence =? 0) eqn:Hm; cbn.
    + do 3 eexists. split; [reflexivity|].
      apply Z.eqb_eq in Hm.
      match goal with |- epoch_trace _ _ _ _ _ _ _ (_ :: _ ++ EvAddScalar _ ?t _ :: EvCompLossAccuracy _ _ ?tl ?ta :: EvCompLossAccuracy _ _ ?el ?ea :: _) _ =>
          apply (epoch_stats tg teg lr targets cadence m e _ (mkStatRecord e t tl el ta ea)) end; auto.
    + do 3 eexists. split; [reflexivity|].
      apply Z.eqb_neq in Hm. apply epoch_plain; auto.
Qed.

Lemma foldM_run_epoch tg teg lr targets cadence es : forall m s,
  exists o w tr,
  foldM (run_epoch tg teg lr targets cadence) es m s = mkResult o (mkStore (hparams s) w) tr
  /\ epochs_trace tg teg lr targets cadence m es tr o.
Proof.
  induction es as [|e es IH]; intros m s.
  - exists (Returned m), (the_world s), []. split.
    + destruct s; reflexivity.
    + constructor.
  - cbn [foldM].
    destruct (run_epoch_trace tg teg lr targets cadence m e s) as (o & w & tr & Hr & Ht).
    unfold bind. rewrite Hr.
    destruct o as [m'|x].
    + destruct (IH m' (mkStore (hparams s) w)) as (o' & w' & tr' & -> & Ht').
      cbn. do 3 eexists. split; [reflexivity|].
      econstructor; eauto.
    + do 3 eexists. split; [reflexivity|].
      apply epochs_raise. exact Ht.
Qed.

Lemma choose_step_size_result s :
  exists best w,
  choose_step_size s =
  mkResult (Returned (chosen_step_size (hparams s) best))
    (mkStore (hparams_after (hparams s) best) w)
    (search_part (hparams s) best)
  /\ (step_size (hparams s) = None ->
      best = fst (learning_rate_search (hparams s) (the_world s))).
Proof.
  unfold choose_step_size, chosen_step_size, hparams_after, search_part.
  run_step.
  destruct (step_size (hparams s)) as [lr|].
  - exists lr, (the_world s). split; [|discriminate]. destruct s; reflexivity.
  - do 3 run_step. eexists _, _. unfold ret, search_trace. split; reflexivity.
Qed.

Lemma hparams_after_fields (hp : HParams scalar) (best : scalar) :
  num_targets (hparams_after hp best) = num_targets hp
  /\ stats_every_num_epochs (hparams_after hp best) = stats_every_num_epochs hp
  /\ num_epochs (hparams_after hp best) = num_epochs hp
  /\ optimizer (hparams_after hp best) = optimizer hp
  /\ device (hparams_after hp best) = device hp
  /\ lr_search (hparams_after hp best) = lr_search hp
  /\ step_size (hparams_after hp best) = Some (chosen_step_size hp best).
Proof.
  unfold hparams_after, chosen_step_size.
  destruct (step_size hp) eqn:Hs; cbn; auto 10.
Qed.

(** The decomposition of a run into its phases. *)
Lemma run_experiment_shape s :
  exists best ds m0 o w tr,
  let hp := hparams s in
  let hp' := hparams_after hp best in
  run_experiment s =
    mkResult (match o with Returned _ => Returned tt | Raised x => Raised x end)
      (mkStore hp' w)
      (init_trace hp ++ search_part hp best ++ setup_trace hp' ds m0
         ++ tr ++ done_trace o)
  /\ epochs_trace (get_training_dataloader ds) (get_test_dataloader ds)
       (chosen_step_size hp best) (num_targets hp) (stats_every_num_epochs hp)
       m0 (range (num_epochs hp)) tr o
  /\ (step_size hp = None -> exists w0, best = fst (learning_rate_search hp w0)).
Proof.
  unfold run_experiment.
  do 4 run_step.
  match goal with |- context [bind choose_step_size _ ?s'] =>
    destruct (choose_step_size_result s') as (best & w2 & Hc & Hbest) end.
  cbn [hparams the_world] in Hbest.
  rewrite (bind_result _ _ _ _ _ _ Hc). cbn [hparams].
  do 5 run_step.
  destruct (hparams_after_fields (hparams s) best) as (Hnt & Hcad & Hn & _).
  rewrite Hnt, Hcad, Hn.
  match goal with |- context [bind (foldM (run_epoch ?tg ?teg ?lr ?nt ?c) ?es ?m) _ ?s'] =>
    destruct (foldM_run_epoch tg teg lr nt c es m s') as (o & w3 & tr & Hf & Htr) end.
  cbn [hparams] in Hf.
  exists best.
  match type of Htr with epochs_trace (get_training_dataloader ?ds) _ _ _ _ ?m _ _ _ =>
    exists ds, m end.
  exists o.
  destruct o as [m'|x].
  - rewrite (bind_result _ _ _ _ _ _ Hf). do 1 run_step.
    eexists. exists tr. split; [|split; [exact Htr|eauto]].
    unfold bind, emit. cbn [after hparams the_world].
    unfold init_trace, setup_trace, done_trace.
    rewrite <- !app_assoc. cbn [app]. reflexivity.
  - rewrite (bind_raise _ _ _ _ _ _ Hf).
    eexists. exists tr. split; [|split; [exact Htr|eauto]].
    cbn [after].
    unfold init_trace, setup_trace, done_trace.
    rewrite <- !app_assoc. cbn [app]. rewrite app_nil_r. reflexivity.
Qed.

(** *** What the epoch loop leaves in the trace *)

Lemma epoch_raise_cadence tg teg lr targets cadence m e tr x :
  epoch_trace tg teg lr targets cadence m e tr (Raised x) -> cadence = 0.
Proof. inversion 1; assumption. Qed.

Lemma epoch_return_cadence tg teg lr targets cadence m e tr m' :
  epoch_trace tg teg lr targets cadence m e tr (Returned m') -> cadence <> 0.
Proof. inversion 1; assumption. Qed.

Lemma epochs_return tg teg lr targets cadence m es tr o :
  cadence <> 0 ->
  epochs_trace tg teg lr targets cadence m es tr o ->
  exists m', o = Returned m'.
Proof.
  intros Hc H. induction H.
  - eauto.
  - assumption.
  - apply epoch_raise_cadence in H. contradiction.
Qed.

(** The steps of one pass. *)
Lemma threaded_steps lr targets bs : forall m rest,
  threaded (trained lr targets m bs) rest ->
  threaded m (step_calls (steps_trace lr targets m bs) ++ rest).
Proof.
  induction bs as [|b bs IH]; intros m rest H; cbn.
  - exact H.
  - split; [reflexivity|]. apply IH. exact H.
Qed.

Lemma steps_lr lr targets bs : forall m,
  Forall (fun c => call_lr c = lr) (step_calls (steps_trace lr targets m bs)).
Proof.
  induction bs as [|b bs IH]; intros m; cbn; constructor.
  - reflexivity.
  - apply IH.
Qed.

Lemma steps_run_events lr targets bs : forall m,
  Forall (fun ev => is_run_event ev = true) (steps_trace lr targets m bs).
Proof.
  induction bs as [|b bs IH]; intros m; cbn; constructor.
  - reflexivity.
  - apply IH.
Qed.

Lemma training_view_steps lr targets bs : forall m,
  training_view (steps_trace lr targets m bs) =
  map (fun b => Step (fst b) (one_hot (snd b) targets)) bs.
Proof.
  induction bs as [|b bs IH]; intros m; [reflexivity|].
  cbn [steps_trace map]. change (training_view (?ev :: ?tr)) with
    (training_view [ev] ++ training_view tr)%list.
  rewrite IH. reflexivity.
Qed.

Lemma passes_steps lr targets bs : forall m,
  passes (steps_trace lr targets m bs) = [].
Proof. induction bs as [|b bs IH]; intros m; [reflexivity|apply IH]. Qed.

Lemma scalars_of_steps tag lr targets bs : forall m,
  scalars_of tag (steps_trace lr targets m bs) = [].
Proof. induction bs as [|b bs IH]; intros m; [reflexivity|apply IH]. Qed.

Lemma scalar_tags_steps lr targets bs : forall m,
  scalar_tags (steps_trace lr targets m bs) = [].
Proof. induction bs as [|b bs IH]; intros m; [reflexivity|apply IH]. Qed.

Lemma file_writes_steps lr targets bs : forall m,
  file_writes (steps_trace lr targets m bs) = [].
Proof. induction bs as [|b bs IH]; intros m; [reflexivity|apply IH]. Qed.

Lemma evaluations_steps lr targets bs : forall m,
  evaluations (steps_trace lr targets m bs) = [].
Proof. induction bs as [|b bs IH]; intros m; [reflexivity|apply IH]. Qed.

(** One epoch. *)
Lemma epoch_run_events tg teg lr targets cadence m e tr o :
  epoch_trace tg teg lr targets cadence m e tr o ->
  Forall (fun ev => is_run_event ev = true) tr.
Proof.
  intros H; inversion H; subst;
    repeat (apply Forall_app; split); try apply steps_run_events;
    repeat constructor.
Qed.

Lemma epoch_step_calls tg teg lr targets cadence m e tr o :
  epoch_trace tg teg lr targets cadence m e tr o ->
  exists bs,
    step_calls tr = step_calls (steps_trace lr targets m bs)
    /\ training_view tr = Pass bs :: map (fun b => Step (fst b) (one_hot (snd b) targets)) bs
    /\ passes tr = [(tg, bs)]
    /\ (forall m', o = Returned m' -> m' = trained lr targets m bs).
Proof.
  intros H; inversion H; subst; exists bs;
    autorewrite with readings;
    rewrite training_view_steps, passes_steps; cbn;
    rewrite ?app_nil_r; repeat split; auto; congruence.
Qed.

Lemma epochs_run_events tg teg lr targets cadence m es tr o :
  epochs_trace tg teg lr targets cadence m es tr o ->
  Forall (fun ev => is_run_event ev = true) tr.
Proof.
  induction 1.
  - constructor.
  - apply Forall_app; split; eauto using epoch_run_events.
  - eauto using epoch_run_events.
Qed.

Lemma epochs_steps_lr tg teg lr targets cadence m es tr o :
  epochs_trace tg teg lr targets cadence m es tr o ->
  Forall (fun c => call_lr c = lr) (step_calls tr).
Proof.
  induction 1 as [|m e es tr m' tr' o H _ IH|m e es tr x H].
  - constructor.
  - destruct (epoch_step_calls _ _ _ _ _ _ _ _ _ H) as (bs & Hs & _).
    rewrite step_calls_app, Hs. apply Forall_app; split; [apply steps_lr|exact IH].
  - destruct (epoch_step_calls _ _ _ _ _ _ _ _ _ H) as (bs & Hs & _).
    rewrite Hs. apply steps_lr.
Qed.

Lemma epochs_threaded tg teg lr targets cadence m es tr o :
  epochs_trace tg teg lr targets cadence m es tr o ->
  threaded m (step_calls tr).
Proof.
  induction 1 as [|m e es tr m' tr' o H _ IH|m e es tr x H].
  - exact I.
  - destruct (epoch_step_calls _ _ _ _ _ _ _ _ _ H) as (bs & Hs & _ & _ & Hm).
    rewrite step_calls_app, Hs. apply threaded_steps.
    rewrite <- (Hm m' eq_refl). exact IH.
  - destruct (epoch_step_calls _ _ _ _ _ _ _ _ _ H) as (bs & Hs & _).
    rewrite Hs, <- (app_nil_r (step_calls _)). apply threaded_steps. exact I.
Qed.

(** The epochs whose body is entered, of a list of epochs. *)
Lemma epochs_training_view tg teg lr targets cadence m es tr o :
  epochs_trace tg teg lr targets cadence m es tr o ->
  training_view tr =
    flat_map (fun p => Pass (snd p)
                :: map (fun b => Step (fst b) (one_hot (snd b) targets)) (snd p))
             (passes tr)
  /\ Forall (fun p => fst p = tg) (passes tr)
  /\ List.length (passes tr) = List.length (if cadence =? 0 then firstn 1 es else es).
Proof.
  induction 1 as [|m e es tr m' tr' o H _ IH|m e es tr x H].
  - cbn. destruct (cadence =? 0); auto.
  - destruct (epoch_step_calls _ _ _ _ _ _ _ _ _ H) as (bs & _ & Hv & Hp & _).
    destruct IH as (IHv & IHp & IHl).
    apply epoch_return_cadence in H. apply Z.eqb_neq in H. rewrite H in *.
    rewrite training_view_app, passes_app, Hv, Hp, IHv. cbn.
    repeat split; auto.
  - destruct (epoch_step_calls _ _ _ _ _ _ _ _ _ H) as (bs & _ & Hv & Hp & _).
    apply epoch_raise_cadence in H. subst cadence.
    rewrite Hv, Hp. cbn. rewrite app_nil_r. auto.
Qed.

(** The readings of the statistics of an epoch on the cadence. *)
Lemma stats_block_readings tg teg m r :
  scalars_of "Epoch_time" (stats_block tg teg m r) = [(rec_epoch_time r, rec_epoch r)]
  /\ scalars_of "Accuracy/train" (stats_block tg teg m r) = [(rec_train_accuracy r, rec_epoch r)]
  /\ scalars_of "Accuracy/test" (stats_block tg teg m r) = [(rec_test_accuracy r, rec_epoch r)]
  /\ scalars_of "Loss/train" (stats_block tg teg m r) = [(rec_train_loss r, rec_epoch r)]
  /\ scalars_of "Loss/test" (stats_block tg teg m r) = [(rec_test_loss r, rec_epoch r)]
  /\ scalar_tags (stats_block tg teg m r) =
       ["Epoch_time"; "Accuracy/train"; "Accuracy/test"; "Loss/train"; "Loss/test"]
  /\ file_writes (stats_block tg teg m r) = [record_line r].
Proof. repeat split; reflexivity. Qed.

Lemma epochs_epoch_time tg teg lr targets cadence m es tr o :
  epochs_trace tg teg lr targets cadence m es tr o ->
  map snd (scalars_of "Epoch_time" tr) = if cadence =? 0 then firstn 1 es else es.
Proof.
  induction 1 as [|m e es tr m' tr' o H _ IH|m e es tr x H].
  - now destruct (cadence =? 0).
  - pose proof (epoch_return_cadence _ _ _ _ _ _ _ _ _ H) as Hc.
    apply Z.eqb_neq in Hc. rewrite Hc in *.
    rewrite scalars_of_app, map_app, IH.
    inversion H; subst; autorewrite with readings; rewrite scalars_of_steps;
      reflexivity.
  - pose proof (epoch_raise_cadence _ _ _ _ _ _ _ _ _ H) as Hc. subst cadence.
    inversion H; subst; autorewrite with readings; rewrite scalars_of_steps;
      reflexivity.
Qed.

Lemma epochs_stat_scalars tag tg teg lr targets cadence m es tr o :
  In tag stat_tags ->
  epochs_trace tg teg lr targets cadence m es tr o ->
  map snd (scalars_of tag tr) =
  if cadence =? 0 then [] else filter (fun e => (e + 1) mod cadence =? 0) es.
Proof.
  intros Htag.
  induction 1 as [|m e es tr m' tr' o H _ IH|m e es tr x H].
  - now destruct (cadence =? 0).
  - pose proof (epoch_return_cadence _ _ _ _ _ _ _ _ _ H) as Hc.
    apply Z.eqb_neq in Hc. rewrite Hc in *.
    rewrite scalars_of_app, map_app, IH. cbn [filter].
    inversion H as [bs t _ Hm|bs r _ Hm Hr|]; subst;
      autorewrite with readings; rewrite scalars_of_steps.
    + apply Z.eqb_neq in Hm. rewrite Hm.
      cbn in Htag. decompose [or] Htag; subst; try contradiction; reflexivity.
    + rewrite Hm. cbn [Z.eqb].
      destruct (stats_block_readings tg teg (trained lr targets m bs) r)
        as (_ & H1 & H2 & H3 & H4 & _).
      cbn in Htag. decompose [or] Htag; subst; try contradiction;
        rewrite ?H1, ?H2, ?H3, ?H4; reflexivity.
  - pose proof (epoch_raise_cadence _ _ _ _ _ _ _ _ _ H) as Hc. subst cadence.
    inversion H; subst; autorewrite with readings; rewrite scalars_of_steps.
    cbn in Htag. decompose [or] Htag; subst; try contradiction; reflexivity.
Qed.

Lemma epochs_scalar_tags tg teg lr targets cadence m es tr o :
  epochs_trace tg teg lr targets cadence m es tr o ->
  Forall (fun tag => In tag ("Epoch_time" :: stat_tags)) (scalar_tags tr).
Proof.
  assert (Hb : forall tgs, incl tgs ("Epoch_time" :: stat_tags) ->
            Forall (fun tag => In tag ("Epoch_time" :: stat_tags)) tgs).
  { intros tgs Hi. apply Forall_forall. exact Hi. }
  assert (He : forall m e tr o, epoch_trace tg teg lr targets cadence m e tr o ->
            Forall (fun tag => In tag ("Epoch_time" :: stat_tags)) (scalar_tags tr)).
  { intros m0 e tr0 o0 H. inversion H; subst; autorewrite with readings;
      rewrite scalar_tags_steps; apply Hb; unfold stat_tags; intros a Ha;
      cbn in *; tauto. }
  induction 1.
  - constructor.
  - rewrite scalar_tags_app. apply Forall_app; split; eauto.
  - eauto.
Qed.

Lemma epochs_records tg teg lr targets cadence m es tr o :
  epochs_trace tg teg lr targets cadence m es tr o ->
  exists recs,
    map rec_epoch recs =
      (if cadence =? 0 then [] else filter (fun e => (e + 1) mod cadence =? 0) es)
    /\ file_writes tr = map record_line recs
    /\ Forall (fun r => exists pre post m',
                 tr = pre ++ stats_block tg teg m' r ++ post) recs.
Proof.
  induction 1 as [|m e es tr m' tr' o H _ IH|m e es tr x H].
  - exists []. destruct (cadence =? 0); repeat split; constructor.
  - pose proof (epoch_return_cadence _ _ _ _ _ _ _ _ _ H) as Hc.
    apply Z.eqb_neq in Hc. rewrite Hc in *.
    destruct IH as (recs & He & Hw & Hb).
    assert (Hb' : Forall (fun r => exists pre post m'0,
                   tr ++ tr' = pre ++ stats_block tg teg m'0 r ++ post) recs).
    { eapply Forall_impl; [|exact Hb]. cbn. intros r (pre & post & m0 & ->).
      exists (tr ++ pre), post, m0. now rewrite app_assoc. }
    cbn [filter].
    inversion H as [bs t _ Hm|bs r _ Hm Hr|]; subst.
    + apply Z.eqb_neq in Hm. rewrite Hm. exists recs.
      autorewrite with readings. rewrite file_writes_steps. auto.
    + rewrite Hm. cbn [Z.eqb]. exists (r :: recs).
      autorewrite with readings. rewrite file_writes_steps.
      cbn [map]. rewrite He, Hw. repeat split; auto.
      constructor; [|exact Hb'].
      exists ([EvIterate tg bs] ++ steps_trace lr targets m bs), tr',
             (trained lr targets m bs).
      now rewrite <- !app_assoc.
  - pose proof (epoch_raise_cadence _ _ _ _ _ _ _ _ _ H) as Hc. subst cadence.
    exists []. inversion H; subst.
    autorewrite with readings. rewrite file_writes_steps.
    repeat split; constructor.
Qed.

(** The model is evaluated at the epochs on the cadence only, on the
    training loader and then on the test loader. *)
Lemma epochs_evaluations tg teg lr targets cadence m es tr o :
  epochs_trace tg teg lr targets cadence m es tr o ->
  evaluations tr =
  flat_map (fun _ => [tg; teg])
    (if cadence =? 0 then [] else filter (fun e => (e + 1) mod cadence =? 0) es).
Proof.
  induction 1 as [|m e es tr m' tr' o H _ IH|m e es tr x H].
  - now destruct (cadence =? 0).
  - pose proof (epoch_return_cadence _ _ _ _ _ _ _ _ _ H) as Hc.
    apply Z.eqb_neq in Hc. rewrite Hc in *.
    rewrite evaluations_app, IH. cbn [filter].
    inversion H as [bs t _ Hm|bs r _ Hm Hr|]; subst;
      autorewrite with readings; rewrite evaluations_steps.
    + apply Z.eqb_neq in Hm. rewrite Hm. reflexivity.
    + rewrite Hm. reflexivity.
  - pose proof (epoch_raise_cadence _ _ _ _ _ _ _ _ _ H) as Hc. subst cadence.
    inversion H; subst; autorewrite with readings; rewrite evaluations_steps.
    reflexivity.
Qed.

(** With a cadence of 0 the first epoch is the only one, and its body
    raises after the epoch time went to the sink. *)
Lemma epochs_zero_cadence tg teg lr targets m e es tr o :
  epochs_trace tg teg lr targets 0 m (e :: es) tr o ->
  o = Raised ZeroDivisionError
  /\ exists bs t,
       tr = [EvIterate tg bs] ++ steps_trace lr targets m bs
              ++ [EvAddScalar "Epoch_time" t e].
Proof.
  intros H. inversion H as [|? ? ? ? ? ? ? H1 _|? ? ? ? ? H1]; subst.
  - apply epoch_return_cadence in H1. contradiction.
  - inversion H1; subst. destruct x. split; [reflexivity|]. eauto.
Qed.

Lemma epochs_nil_inv tg teg lr targets cadence m tr o :
  epochs_trace tg teg lr targets cadence m [] tr o ->
  tr = [] /\ o = Returned m.
Proof. inversion 1; auto. Qed.

(** How the epoch loop over [range(n)] ends. *)
Lemma epochs_outcome tg teg lr targets cadence m n tr (o : Outcome model) :
  epochs_trace tg teg lr targets cadence m (range n) tr o ->
  (cadence = 0 /\ 0 < n ->
     o = Raised ZeroDivisionError
     /\ exists bs t, tr = [EvIterate tg bs] ++ steps_trace lr targets m bs
                            ++ [EvAddScalar "Epoch_time" t 0])
  /\ (cadence <> 0 \/ n <= 0 -> exists m', o = Returned m')
  /\ (n <= 0 -> tr = []).
Proof.
  intros H. repeat split.
  - destruct H0 as (-> & Hn). destruct (range_pos n Hn) as (es & Hr).
    rewrite Hr in H. apply (epochs_zero_cadence _ _ _ _ _ _ _ _ _ H).
  - destruct H0 as (-> & Hn). destruct (range_pos n Hn) as (es & Hr).
    rewrite Hr in H. apply (epochs_zero_cadence _ _ _ _ _ _ _ _ _ H).
  - intros [Hc|Hn].
    + eapply epochs_return; eassumption.
    + rewrite (range_nonpos n Hn) in H. apply epochs_nil_inv in H.
      destruct H as (_ & ->). eauto.
  - intros Hn. rewrite (range_nonpos n Hn) in H. now apply epochs_nil_inv in H.
Qed.

(** *** Training, with the arguments of each step *)

Lemma training_calls_steps lr targets bs : forall m,
  training_calls (steps_trace lr targets m bs) =
  map (fun b => StepOn (fst b) (one_hot (snd b) targets) lr) bs.
Proof.
  induction bs as [|b bs IH]; intros m; [reflexivity|].
  cbn [steps_trace map]. change (training_calls (?ev :: ?tr)) with
    (training_calls [ev] ++ training_calls tr)%list.
  rewrite IH. reflexivity.
Qed.

Lemma epoch_training_calls tg teg lr targets cadence m e tr o :
  epoch_trace tg teg lr targets cadence m e tr o ->
  exists bs,
    passes tr = [(tg, bs)]
    /\ training_calls tr = epoch_training tg lr targets bs.
Proof.
  intros H; inversion H; subst; exists bs;
    autorewrite with readings;
    rewrite training_calls_steps, passes_steps; cbn;
    rewrite ?app_nil_r; split; reflexivity.
Qed.

(** The epoch loop trains: one pass per epoch whose body is entered, and
    one step per batch of the pass with the step size of the loop. *)
Lemma epochs_trains tg teg lr targets cadence m es tr o :
  epochs_trace tg teg lr targets cadence m es tr o ->
  trains_with tg lr targets (if cadence =? 0 then firstn 1 es else es) tr.
Proof.
  unfold trains_with.
  induction 1 as [|m e es tr m' tr' o H _ IH|m e es tr x H].
  - cbn. destruct (cadence =? 0); auto.
  - destruct (epoch_training_calls _ _ _ _ _ _ _ _ _ H) as (bs & Hp & Hc).
    destruct IH as (IHl & IHc).
    apply epoch_return_cadence in H. apply Z.eqb_neq in H. rewrite H in *.
    rewrite training_calls_app, passes_app, Hp, Hc, IHc. cbn.
    split; [now rewrite IHl|reflexivity].
  - destruct (epoch_training_calls _ _ _ _ _ _ _ _ _ H) as (bs & Hp & Hc).
    apply epoch_raise_cadence in H. subst cadence.
    rewrite Hp, Hc. cbn. rewrite app_nil_r. auto.
Qed.

End LoopFacts.

(** ** The readings of a whole run *)

Section RunFacts.

Context {scalar : Type} {C : Carriers scalar} {E : Externals C}.

Ltac by_cases_on hp o :=
  unfold init_trace, search_part, search_trace, setup_trace, done_trace;
  try destruct (String.eqb (device hp) "cpu");
  try destruct (step_size hp);
  try destruct o;
  repeat split; reflexivity.

Lemma phases_no_training (hp hp' : HParams scalar) best ds m0 (o : Outcome model) :
  (step_calls (init_trace hp) = [] /\ training_view (init_trace hp) = []
   /\ passes (init_trace hp) = [] /\ scalar_tags (init_trace hp) = []
   /\ file_writes (init_trace hp) = [] /\ search_calls (init_trace hp) = [])
  /\ (step_calls (search_part hp best) = [] /\ training_view (search_part hp best) = []
   /\ passes (search_part hp best) = [] /\ scalar_tags (search_part hp best) = []
   /\ file_writes (search_part hp best) = []
   /\ jax_config_updates (search_part hp best) = [])
  /\ (step_calls (setup_trace hp' ds m0) = [] /\ training_view (setup_trace hp' ds m0) = []
   /\ passes (setup_trace hp' ds m0) = [] /\ scalar_tags (setup_trace hp' ds m0) = []
   /\ file_writes (setup_trace hp' ds m0) = [] /\ search_calls (setup_trace hp' ds m0) = []
   /\ jax_config_updates (setup_trace hp' ds m0) = [])
  /\ (step_calls (done_trace o) = [] /\ training_view (done_trace o) = []
   /\ passes (done_trace o) = [] /\ scalar_tags (done_trace o) = []
   /\ file_writes (done_trace o) = [] /\ search_calls (done_trace o) = []
   /\ jax_config_updates (done_trace o) = []).
Proof. by_cases_on hp o. Qed.

Lemma phases_no_scalars tag (hp hp' : HParams scalar) best ds m0 (o : Outcome model) :
  scalars_of tag (init_trace hp) = []
  /\ scalars_of tag (search_part hp best) = []
  /\ scalars_of tag (setup_trace hp' ds m0) = []
  /\ scalars_of tag (done_trace o) = [].
Proof. by_cases_on hp o. Qed.

Lemma phases_no_evaluations (hp hp' : HParams scalar) best ds m0 (o : Outcome model) :
  evaluations (init_trace hp) = []
  /\ evaluations (search_part hp best) = []
  /\ evaluations (setup_trace hp' ds m0) = []
  /\ evaluations (done_trace o) = [].
Proof. by_cases_on hp o. Qed.

Lemma init_trace_jax (hp : HParams scalar) :
  jax_config_updates (init_trace hp) =
  if String.eqb (device hp) "cpu" then [("jax_platform_name", "cpu")] else [].
Proof.
  unfold init_trace. now destruct (String.eqb (device hp) "cpu").
Qed.

Lemma search_part_calls (hp : HParams scalar) best :
  search_calls (search_part hp best) =
  match step_size hp with None => [(hp, best)] | Some _ => [] end.
Proof.
  unfold search_part. now destruct (step_size hp).
Qed.

(** A run, read through each observation: only the epoch loop trains,
    feeds the sink and writes to the log; only the first two phases
    configure the device and search. *)
Lemma run_experiment_readings (s : Store) :
  exists best ds m0 o tr,
  let hp := hparams s in
  let hp' := hparams_after hp best in
  let r := run_experiment s in
  events r = init_trace hp ++ search_part hp best ++ setup_trace hp' ds m0
               ++ tr ++ done_trace o
  /\ outcome r = match o with Returned _ => Returned tt | Raised x => Raised x end
  /\ hparams (final r) = hp'
  /\ epochs_trace (get_training_dataloader ds) (get_test_dataloader ds)
       (chosen_step_size hp best) (num_targets hp) (stats_every_num_epochs hp)
       m0 (range (num_epochs hp)) tr o
  /\ step_calls (events r) = step_calls tr
  /\ training_view (events r) = training_view tr
  /\ passes (events r) = passes tr
  /\ (forall tag, scalars_of tag (events r) = scalars_of tag tr)
  /\ scalar_tags (events r) = scalar_tags tr
  /\ file_writes (events r) = file_writes tr
  /\ search_calls (events r) =
       match step_size hp with None => [(hp, best)] | Some _ => [] end
  /\ jax_config_updates (events r) =
       (if String.eqb (device hp) "cpu" then [("jax_platform_name", "cpu")] else [])
  /\ (step_size hp = None -> exists w0, best = fst (learning_rate_search hp w0))
  /\ evaluations (events r) = evaluations tr.
Proof.
  destruct (run_experiment_shape s) as (best & ds & m0 & o & w & tr & Hr & Ht & Hb).
  cbv zeta in Hr.
  exists best, ds, m0, o, tr. cbv zeta. rewrite Hr. cbn [events outcome final hparams].
  pose proof (phases_no_training (hparams s) (hparams_after (hparams s) best) best ds m0 o)
    as ((I1 & I2 & I3 & I4 & I5 & I6) & (S1 & S2 & S3 & S4 & S5 & S6)
        & (U1 & U2 & U3 & U4 & U5 & U6 & U7) & (D1 & D2 & D3 & D4 & D5 & D6 & D7)).
  pose proof (epochs_run_events _ _ _ _ _ _ _ _ _ Ht) as Hrun.
  repeat split; auto; autorewrite with readings.
  - now rewrite I1, S1, U1, D1, app_nil_r.
  - now rewrite I2, S2, U2, D2, app_nil_r.
  - now rewrite I3, S3, U3, D3, app_nil_r.
  - intros tag. autorewrite with readings.
    destruct (phases_no_scalars tag (hparams s) (hparams_after (hparams s) best) best ds m0 o)
      as (T1 & T2 & T3 & T4).
    now rewrite T1, T2, T3, T4, app_nil_r.
  - now rewrite I4, S4, U4, D4, app_nil_r.
  - now rewrite I5, S5, U5, D5, app_nil_r.
  - rewrite I6, U6, D6, search_part_calls, (run_events_no_search _ Hrun).
    now rewrite !app_nil_r.
  - rewrite S6, U7, D7, init_trace_jax, (run_events_no_jax _ Hrun).
    now rewrite !app_nil_r.
  - destruct (phases_no_evaluations (hparams s) (hparams_after (hparams s) best) best ds m0 o)
      as (V1 & V2 & V3 & V4).
    now rewrite V1, V2, V3, V4, app_nil_r.
Qed.

Lemma in_setup_data_server (hp : HParams scalar) ds m0 pre post :
  In (EvDataServer hp ds) (pre ++ setup_trace hp ds m0 ++ post).
Proof. apply in_or_app. right. now left. Qed.

Lemma in_setup_model (hp : HParams scalar) ds m0 pre post :
  In (EvModel hp m0) (pre ++ setup_trace hp ds m0 ++ post).
Proof. apply in_or_app. right. right. now left. Qed.

(** A run returns when the cadence is not 0. *)
Lemma run_experiment_returns (s : Store) :
  stats_every_num_epochs (hparams s) <> 0 ->
  exists best w tr,
    run_experiment s =
    mkResult (Returned tt) (mkStore (hparams_after (hparams s) best) w) tr
    /\ search_calls tr =
         match step_size (hparams s) with None => [(hparams s, best)] | Some _ => [] end
    /\ Forall (fun c => call_lr c = chosen_step_size (hparams s) best) (step_calls tr).
Proof.
  intros Hc.
  destruct (run_experiment_readings s)
    as (best & ds & m0 & o & tr & _ & Ho & Hf & Ht & Hs & _ & _ & _ & _ & _ & Hsc & _).
  cbv zeta in *.
  destruct (epochs_return _ _ _ _ _ _ _ _ _ Hc Ht) as (m' & ->).
  apply epochs_steps_lr in Ht. rewrite <- Hs in Ht.
  destruct (run_experiment s) as [o1 [hp1 w1] tr1]. cbn in *. subst.
  exists best, w1, tr1. auto.
Qed.

(** A trace read through [step_calls] in a run without a configured step
    size: every call uses the rate the search returned. *)
Lemma searched_rate_used (s : Store) :
  step_size (hparams s) = None ->
  exists w0,
    Forall (fun c => call_lr c = fst (learning_rate_search (hparams s) w0))
      (step_calls (events (run_experiment s))).
Proof.
  intros Hs.
  destruct (run_experiment_readings s)
    as (best & ds & m0 & o & tr & _ & _ & _ & Ht & Hc & _ & _ & _ & _ & _ & _ & _ & Hb & _).
  cbv zeta in *. destruct (Hb Hs) as (w0 & ->). exists w0.
  rewrite Hc. apply epochs_steps_lr in Ht.
  unfold chosen_step_size in Ht. rewrite Hs in Ht. exact Ht.
Qed.

(** *** The training of a whole run *)

Lemma phases_no_training_calls (hp hp' : HParams scalar) best ds m0 (o : Outcome model) :
  training_calls (init_trace hp) = []
  /\ training_calls (search_part hp best) = []
  /\ training_calls (setup_trace hp' ds m0) = []
  /\ training_calls (done_trace o) = [].
Proof. by_cases_on hp o. Qed.

(** A run, read through its training: the epoch loop is the only part
    that trains, with the step size chosen before it, which is the one the
    dictionary holds afterwards. *)
Lemma run_experiment_training (s : Store) :
  exists best ds m0 o tr,
  let hp := hparams s in
  let hp' := hparams_after hp best in
  let r := run_experiment s in
  let lr := chosen_step_size hp best in
  let epochs := entered_epochs (num_epochs hp) (stats_every_num_epochs hp) in
  events r = init_trace hp ++ search_part hp best ++ setup_trace hp' ds m0
               ++ tr ++ done_trace o
  /\ outcome r = match o with Returned _ => Returned tt | Raised x => Raised x end
  /\ hparams (final r) = hp'
  /\ epochs_trace (get_training_dataloader ds) (get_test_dataloader ds)
       lr (num_targets hp) (stats_every_num_epochs hp)
       m0 (range (num_epochs hp)) tr o
  /\ step_calls (events r) = step_calls tr
  /\ search_calls (events r) =
       match step_size hp with None => [(hp, best)] | Some _ => [] end
  /\ (step_size hp = None -> exists w0, best = fst (learning_rate_search hp w0))
  /\ trains_with (get_training_dataloader ds) lr (num_targets hp) epochs tr
  /\ trains_with (get_training_dataloader ds) lr (num_targets hp) epochs (events r)
  /\ In (EvDataServer hp' ds) (events r)
  /\ In (EvModel hp' m0) (events r)
  /\ step_size hp' = Some lr
  /\ Forall (fun c => call_lr c = lr) (step_calls (events r)).
Proof.
  destruct (run_experiment_readings s)
    as (best & ds & m0 & o & tr & He & Ho & Hf & Ht & Hs & _ & Hp & _ & _ & _
        & Hsc & _ & Hb & _).
  cbv zeta in *. exists best, ds, m0, o, tr.
  pose proof (epochs_trains _ _ _ _ _ _ _ _ _ Ht) as Htr.
  assert (Hrun : trains_with (get_training_dataloader ds)
                   (chosen_step_size (hparams s) best) (num_targets (hparams s))
                   (entered_epochs (num_epochs (hparams s))
                      (stats_every_num_epochs (hparams s)))
                   (events (run_experiment s))).
  { destruct Htr as (Hl & Hc). unfold trains_with. rewrite Hp.
    split; [exact Hl|]. rewrite <- Hc, He.
    destruct (phases_no_training_calls (hparams s) (hparams_after (hparams s) best)
                best ds m0 o) as (T1 & T2 & T3 & T4).
    autorewrite with readings. now rewrite T1, T2, T3, T4, app_nil_r. }
  refine (conj He (conj Ho (conj Hf (conj Ht (conj Hs (conj Hsc (conj Hb
           (conj Htr (conj Hrun (conj _ (conj _ (conj _ _)))))))))))).
  - rewrite He, app_assoc. apply in_setup_data_server.
  - rewrite He, app_assoc. apply in_setup_model.
  - apply hparams_after_fields.
  - rewrite Hs. eapply epochs_steps_lr. exact Ht.
Qed.

(** The same without the parts of the trace: a run trains with the step
    size that its dictionary holds afterwards. *)
Lemma run_experiment_trains (s : Store) :
  let hp := hparams s in
  let r := run_experiment s in
  exists ds lr,
    step_size (hparams (final r)) = Some lr
    /\ In (EvDataServer (hparams (final r)) ds) (events r)
    /\ trains_with (get_training_dataloader ds) lr (num_targets hp)
         (entered_epochs (num_epochs hp) (stats_every_num_epochs hp)) (events r)
    /\ Forall (fun c => call_lr c = lr) (step_calls (events r)).
Proof.
  destruct (run_experiment_training s)
    as (best & ds & m0 & o & tr & _ & _ & Hf & _ & _ & _ & _ & _ & Hrun & Hds & _
        & Hst & Hlr).
  cbv zeta in *. exists ds, (chosen_step_size (hparams s) best).
  rewrite Hf. auto.
Qed.

(** *** The end of a run *)

Lemma run_events_not_done (tr : list (Event C)) :
  Forall (fun ev => is_run_event ev = true) tr -> ~ In EvFileClose tr.
Proof.
  intros H Hin. rewrite Forall_forall in H. apply H in Hin. discriminate Hin.
Qed.

Lemma phases_not_done (hp hp' : HParams scalar) best ds m0 :
  ~ In EvFileClose (init_trace hp ++ search_part hp best ++ setup_trace hp' ds m0).
Proof.
  unfold init_trace, search_part, search_trace, setup_trace.
  destruct (String.eqb (device hp) "cpu"), (step_size hp); cbn;
    intuition discriminate.
Qed.

Lemma phases_kinds (hp hp' : HParams scalar) best ds m0 :
  Forall (fun ev => is_init_event ev = true) (init_trace hp)
  /\ Forall (fun ev => is_search_event ev = true) (search_part hp best)
  /\ Forall (fun ev => is_run_event ev = true) (setup_trace hp' ds m0).
Proof.
  unfold init_trace, search_part, search_trace, setup_trace.
  destruct (String.eqb (device hp) "cpu"), (step_size hp);
    repeat split; repeat constructor.
Qed.

(** A run goes through the four phases exactly when it returns. *)
Lemma run_in_phase_order (s : Store) :
  in_phase_order (events (run_experiment s))
  <-> stats_every_num_epochs (hparams s) <> 0 \/ num_epochs (hparams s) <= 0.
Proof.
  destruct (run_experiment_readings s)
    as (best & ds & m0 & o & tr & He & _ & _ & Ht & _).
  cbv zeta in *.
  destruct (epochs_outcome _ _ _ _ _ _ _ _ _ Ht) as (Hz & Hr & _).
  pose proof (epochs_run_events _ _ _ _ _ _ _ _ _ Ht) as Hrun.
  destruct (phases_kinds (hparams s) (hparams_after (hparams s) best) best ds m0)
    as (K1 & K2 & K3).
  split.
  - intros (init & search & run & Heq & _).
    destruct (Z.eq_dec (stats_every_num_epochs (hparams s)) 0) as [Hc|Hc];
      [|now left].
    destruct (Z_lt_le_dec 0 (num_epochs (hparams s))) as [Hn|Hn]; [|now right].
    exfalso. destruct (Hz (conj Hc Hn)) as (-> & _).
    assert (Hin : In EvFileClose (events (run_experiment s))).
    { rewrite Heq, !in_app_iff. do 3 right. right. now left. }
    rewrite He in Hin. cbn [done_trace] in Hin. rewrite app_nil_r in Hin.
    rewrite !app_assoc in Hin. apply in_app_or in Hin. destruct Hin as [Hin|Hin].
    + rewrite <- app_assoc in Hin. revert Hin. apply phases_not_done.
    + revert Hin. apply run_events_not_done. exact Hrun.
  - intros H. destruct (Hr H) as (m' & ->).
    exists (init_trace (hparams s)), (search_part (hparams s) best),
           (setup_trace (hparams_after (hparams s) best) ds m0 ++ tr).
    refine (conj _ (conj K1 (conj K2 _))).
    + rewrite He. cbn [done_trace]. now rewrite <- !app_assoc.
    + apply Forall_app. split; assumption.
Qed.

End RunFacts.

(** ** Runs of the small instance *)

Example range_examples :
  range 3 = [0; 1; 2] /\ range 0 = [] /\ range (-2) = [].
Proof. repeat split. Qed.

Example int_str_examples :
  int_str 12 = "12" /\ int_str 0 = "0" /\ int_str (-3) = "-3".
Proof. repeat split. Qed.

(** Four epochs, statistics every two: the log has the records of the
    epochs 1 and 3, the sink has the epoch time of each epoch. *)
Example toy_run_log :
  let tr := events (run_experiment (E := toy_in_place) (toy_store None 4 2 "cpu")) in
  file_writes tr =
    [ ("1 <float> <float> <float> <float> <float>" ++ newline)%string;
      ("3 <float> <float> <float> <float> <float>" ++ newline)%string ]
  /\ map snd (scalars_of "Epoch_time" tr) = [0; 1; 2; 3]
  /\ map snd (scalars_of "Loss/test" tr) = [1; 3]
  /\ jax_config_updates tr = [("jax_platform_name", "cpu")]
  /\ search_calls tr = [(toy_hparams None 4 2 "cpu", (1 # 2)%Q)].
Proof. vm_compute. repeat split. Qed.

(** One epoch of two batches: the second step finds the parameter the
    first one left in the model object. *)
Example toy_run_steps :
  step_calls (events (run_experiment (E := toy_in_place)
                        (toy_store (Some (1 # 2)%Q) 1 1 "tpu")))
  = [ mkStepCall (C := toy_carriers Q) 0%Q 1 [1; 0] (1 # 2)%Q;
      mkStepCall (C := toy_carriers Q) (-1 # 2)%Q 2 [0; 1] (1 # 2)%Q ].
Proof. reflexivity. Qed.

(** Two epochs with the configured step size 1/2: two passes over the
    training loader, each followed by one step per batch with that step
    size. *)
Example toy_training_calls :
  training_calls (events (run_experiment (E := toy_in_place)
                            (toy_store (Some (1 # 2)%Q) 2 1 "tpu")))
  = [ PassOver (C := toy_carriers Q) true [(1, 0); (2, 1)];
      StepOn (C := toy_carriers Q) 1 [1; 0] (1 # 2)%Q;
      StepOn (C := toy_carriers Q) 2 [0; 1] (1 # 2)%Q;
      PassOver (C := toy_carriers Q) true [(1, 0); (2, 1)];
      StepOn (C := toy_carriers Q) 1 [1; 0] (1 # 2)%Q;
      StepOn (C := toy_carriers Q) 2 [0; 1] (1 # 2)%Q ]
  /\ trains_with (E := toy_in_place) true (1 # 2)%Q 2 [0; 1]
       (events (run_experiment (E := toy_in_place)
                  (toy_store (Some (1 # 2)%Q) 2 1 "tpu"))).
Proof. repeat split. Qed.

(** A cadence of 0: the first epoch trains, its time goes to the sink,
    and the remainder of line 66 raises. *)
Example toy_zero_cadence :
  let r := run_experiment (E := toy_in_place) (toy_store None 3 0 "tpu") in
  outcome r = Raised ZeroDivisionError
  /\ map snd (scalars_of "Epoch_time" (events r)) = [0]
  /\ List.length (step_calls (events r)) = 2%nat
  /\ file_writes (events r) = [].
Proof. vm_compute. repeat split. Qed.

(** A negative cadence: the remainder of Python has the sign of the
    divisor and is 0 at the multiples. *)
Example toy_negative_cadence :
  map snd (scalars_of "Loss/train"
             (events (run_experiment (E := toy_in_place) (toy_store None 4 (-2) "tpu"))))
  = [1; 3].
Proof. vm_compute. reflexivity. Qed.

(** The main script on the small instance: one search, for the first
    experiment. *)
Example toy_main_searches_once :
  map (fun c => optimizer (fst c)) (search_calls (events (main (E := toy_in_place) 0)))
  = [Some "sgd"].
Proof. vm_compute. reflexivity. Qed.

(** * The training loop *)

Section Claims.

Context {scalar : Type} {C : Carriers scalar} {E : Externals C}.

(** C1 (amended): the training loop holds the model object, not its
    parameters. It calls [model.step] once per batch of each pass over the
    training loader, on the inputs of the batch, its labels one-hot
    encoded with [num_targets] classes, and the step size of the
    dictionary; every call is made on the state in which the previous
    call left the object, the first one on the state [Model(hparams)]
    built; and the value a call returns is dropped: with any other
    returned value the run is the same. *)
Theorem step_acts_on_model_object (s : Store) :
  let hp := hparams s in
  let r := run_experiment s in
  (exists ds m0 lr,
     In (EvDataServer (hparams (final r)) ds) (events r)
     /\ In (EvModel (hparams (final r)) m0) (events r)
     /\ step_size (hparams (final r)) = Some lr
     /\ trains_with (get_training_dataloader ds) lr (num_targets hp)
          (entered_epochs (num_epochs hp) (stats_every_num_epochs hp)) (events r)
     /\ threaded m0 (step_calls (events r)))
  /\ (forall g, run_experiment (E := with_step_value g) s = run_experiment s).
Proof.
  cbv zeta. split; [|reflexivity].
  destruct (run_experiment_training s)
    as (best & ds & m0 & o & tr & _ & _ & Hf & Ht & Hs & _ & _ & _ & Hrun & Hds & Hm
        & Hst & _).
  cbv zeta in *.
  exists ds, m0, (chosen_step_size (hparams s) best). rewrite Hf.
  refine (conj Hds (conj Hm (conj Hst (conj Hrun _)))).
  rewrite Hs. eapply epochs_threaded. exact Ht.
Qed.

(** C2 (amended): a run is the events of INIT, then those of the
    learning-rate search, then the construction of data server, model and
    writer with the epoch loop, then those of DONE (the two [close]
    calls) when the run returns, which it does unless the cadence is 0
    and there is an epoch to run; then it raises and is not in the order
    of the four phases. The search runs if and only if the configured
    step size is null. The epoch loop is the loop over [range(num_epochs)]:
    it makes one pass over the training loader per epoch whose body is
    entered, with one call of [model.step] per batch, and every such call
    uses the step size chosen: the configured one, or else the result of
    the search, which is also what the dictionary holds afterwards. *)
Theorem phases_in_order (s : Store) :
  exists best ds m0 tr_epochs,
  let hp := hparams s in
  let r := run_experiment s in
  let lr := chosen_step_size hp best in
  let epochs := entered_epochs (num_epochs hp) (stats_every_num_epochs hp) in
  events r = init_trace hp ++ search_part hp best
               ++ (setup_trace (hparams_after hp best) ds m0 ++ tr_epochs)
               ++ done_trace (outcome r)
  /\ Forall (fun ev => is_init_event ev = true) (init_trace hp)
  /\ Forall (fun ev => is_run_event ev = true)
       (setup_trace (hparams_after hp best) ds m0 ++ tr_epochs)
  /\ Forall (fun ev => is_done_event ev = true) (done_trace (outcome r))
  /\ (stats_every_num_epochs hp <> 0 -> outcome r = Returned tt)
  /\ (search_part hp best = search_trace hp best <-> step_size hp = None)
  /\ (search_part hp best = [] <-> step_size hp <> None)
  /\ search_calls (events r) =
       match step_size hp with None => [(hp, best)] | Some _ => [] end
  /\ step_calls (events r) = step_calls tr_epochs
  /\ Forall (fun c => call_lr c = lr) (step_calls (events r))
  /\ step_size (hparams (final r)) = Some lr
  /\ (step_size hp = None -> lr = best)
  /\ (forall lr0, step_size hp = Some lr0 -> lr = lr0)
  /\ (exists o, epochs_trace (get_training_dataloader ds) (get_test_dataloader ds)
                  lr (num_targets hp) (stats_every_num_epochs hp)
                  m0 (range (num_epochs hp)) tr_epochs o)
  /\ trains_with (get_training_dataloader ds) lr (num_targets hp) epochs tr_epochs
  /\ map snd (scalars_of "Epoch_time" tr_epochs) = epochs
  /\ (in_phase_order (events r)
      <-> stats_every_num_epochs hp <> 0 \/ num_epochs hp <= 0)
  /\ (outcome r = Raised ZeroDivisionError
      <-> stats_every_num_epochs hp = 0 /\ 0 < num_epochs hp).
Proof.
  destruct (run_experiment_training s)
    as (best & ds & m0 & o & tr & He & Ho & Hf & Ht & Hs & Hc & _ & Htr & _ & _ & _
        & Hst & Hlr).
  cbv zeta in *.
  exists best, ds, m0, tr. cbv zeta.
  assert (Hd : @done_trace _ C unit (outcome (run_experiment s)) = done_trace o).
  { rewrite Ho. now destruct o. }
  destruct (epochs_outcome _ _ _ _ _ _ _ _ _ Ht) as (Hz & Hr & _).
  refine (conj _ (conj _ (conj _ (conj _ (conj _ (conj _ (conj _ (conj Hc
           (conj Hs (conj Hlr (conj _ (conj _ (conj _ (conj _ (conj Htr
           (conj _ (conj (run_in_phase_order s) _))))))))))))))))).
  - rewrite He, Hd, <- !app_assoc. reflexivity.
  - unfold init_trace. destruct (String.eqb (device (hparams s)) "cpu");
      repeat constructor.
  - apply Forall_app; split.
    + repeat constructor.
    + eapply epochs_run_events. exact Ht.
  - rewrite Hd. destruct o; repeat constructor.
  - intros Hcad. rewrite Ho.
    destruct (epochs_return _ _ _ _ _ _ _ _ _ Hcad Ht) as (m' & ->). reflexivity.
  - unfold search_part, search_trace. destruct (step_size (hparams s));
      split; congruence.
  - unfold search_part, search_trace. destruct (step_size (hparams s));
      split; congruence.
  - rewrite Hf. exact Hst.
  - unfold chosen_step_size. now intros ->.
  - unfold chosen_step_size. now intros lr0 ->.
  - exists o. exact Ht.
  - unfold entered_epochs. eapply epochs_epoch_time. exact Ht.
  - rewrite Ho. split.
    + intros Hraised.
      destruct (Z.eq_dec (stats_every_num_epochs (hparams s)) 0) as [Hc0|Hc0];
        [destruct (Z_lt_le_dec 0 (num_epochs (hparams s))) as [Hn|Hn]; [auto|]|].
      * destruct (Hr (or_intror Hn)) as (m' & ->). discriminate Hraised.
      * destruct (Hr (or_introl Hc0)) as (m' & ->). discriminate Hraised.
    + intros H. destruct (Hz H) as (-> & _). reflexivity.
Qed.

(** C4: the run log holds one record per epoch whose 1-based index is a
    multiple of the cadence, in order, and nothing else; a record is the
    line of the epoch (0-based), the epoch time with two decimals, and the
    training loss, the test loss, the training accuracy and the test
    accuracy with four decimals, separated by one space; the record of
    such an epoch is written at the end of a block in which the model is
    evaluated on the training loader and on the test loader of the data
    server and the four results go to the metrics sink; the model is
    evaluated in these blocks only. *)
Theorem stats_on_cadence (s : Store) :
  let hp := hparams s in
  let tr := events (run_experiment s) in
  exists hp' ds recs,
    In (EvDataServer hp' ds) tr
    /\ map rec_epoch recs =
         cadence_epochs (num_epochs hp) (stats_every_num_epochs hp)
    /\ file_writes tr = map record_line recs
    /\ file_writes tr =
         map (fun r =>
                ((int_str (rec_epoch r)
                  ++ " " ++ float_fixed 2 (rec_epoch_time r)
                  ++ " " ++ float_fixed 4 (rec_train_loss r)
                  ++ " " ++ float_fixed 4 (rec_test_loss r)
                  ++ " " ++ float_fixed 4 (rec_train_accuracy r)
                  ++ " " ++ float_fixed 4 (rec_test_accuracy r))
                 ++ newline)%string) recs
    /\ Forall (fun r => exists pre post m,
         tr = pre
              ++ [ EvAddScalar "Epoch_time" (rec_epoch_time r) (rec_epoch r);
                   EvCompLossAccuracy m (get_training_dataloader ds)
                     (rec_train_loss r) (rec_train_accuracy r);
                   EvCompLossAccuracy m (get_test_dataloader ds)
                     (rec_test_loss r) (rec_test_accuracy r);
                   EvAddScalar "Accuracy/train" (rec_train_accuracy r) (rec_epoch r);
                   EvAddScalar "Accuracy/test" (rec_test_accuracy r) (rec_epoch r);
                   EvAddScalar "Loss/train" (rec_train_loss r) (rec_epoch r);
                   EvAddScalar "Loss/test" (rec_test_loss r) (rec_epoch r) ]
              ++ EvFileWrite
                   ((int_str (rec_epoch r)
                     ++ " " ++ float_fixed 2 (rec_epoch_time r)
                     ++ " " ++ float_fixed 4 (rec_train_loss r)
                     ++ " " ++ float_fixed 4 (rec_test_loss r)
                     ++ " " ++ float_fixed 4 (rec_train_accuracy r)
                     ++ " " ++ float_fixed 4 (rec_test_accuracy r))
                    ++ newline)%string
              :: EvFileFlush :: post) recs
    /\ Forall (fun r => exists pre post m,
         tr = pre ++ stats_block (get_training_dataloader ds)
                       (get_test_dataloader ds) m r ++ post) recs
    /\ evaluations tr =
         flat_map (fun _ => [get_training_dataloader ds; get_test_dataloader ds])
           (cadence_epochs (num_epochs hp) (stats_every_num_epochs hp))
    /\ (forall e, In e (cadence_epochs (num_epochs hp) (stats_every_num_epochs hp))
          <-> 0 <= e < num_epochs hp /\ (stats_every_num_epochs hp | e + 1)).
Proof.
  destruct (run_experiment_readings s)
    as (best & ds & m0 & o & tr & He & _ & _ & Ht & _ & _ & _ & _ & _ & Hw & _ & _ & _ & Hev).
  cbv zeta in *.
  destruct (epochs_records _ _ _ _ _ _ _ _ _ Ht) as (recs & Hr & Hfw & Hb).
  exists (hparams_after (hparams s) best), ds, recs.
  assert (Hblocks : Forall (fun r => exists pre post m,
            events (run_experiment s) =
            pre ++ stats_block (get_training_dataloader ds)
                     (get_test_dataloader ds) m r ++ post) recs).
  { eapply Forall_impl; [|exact Hb]. cbv beta.
    intros r (pre & post & m & ->). rewrite He.
    exists (init_trace (hparams s) ++ search_part (hparams s) best
            ++ setup_trace (hparams_after (hparams s) best) ds m0 ++ pre),
           (post ++ done_trace o), m.
    rewrite <- !app_assoc. reflexivity. }
  refine (conj _ (conj _ (conj _ (conj _ (conj _ (conj Hblocks (conj _ _))))))).
  - rewrite He, app_assoc. apply in_setup_data_server.
  - rewrite Hr. apply cadence_epochs_filter.
  - rewrite Hw. exact Hfw.
  - rewrite Hw. exact Hfw.
  - eapply Forall_impl; [|exact Hblocks]. cbv beta.
    intros r (pre & post & m & ->).
    exists pre, (EvPrint (message (rec_epoch r) (rec_epoch_time r) (rec_train_loss r)
                   (rec_test_loss r) (rec_train_accuracy r) (rec_test_accuracy r))
                 :: post), m.
    reflexivity.
  - rewrite Hev, <- cadence_epochs_filter. eapply epochs_evaluations. exact Ht.
  - intros e. apply cadence_epochs_spec.
Qed.

(** C5 (amended): the metrics sink receives the epoch time at every
    epoch whose body is entered, and the two losses and the two
    accuracies at the epochs on the cadence only; it receives nothing
    under another tag. *)
Theorem sink_epoch_time_every_epoch (s : Store) :
  let hp := hparams s in
  let tr := events (run_experiment s) in
  map snd (scalars_of "Epoch_time" tr) =
    entered_epochs (num_epochs hp) (stats_every_num_epochs hp)
  /\ (forall tag, In tag stat_tags ->
        map snd (scalars_of tag tr) =
        cadence_epochs (num_epochs hp) (stats_every_num_epochs hp))
  /\ Forall (fun tag => In tag ("Epoch_time" :: stat_tags)) (scalar_tags tr).
Proof.
  destruct (run_experiment_readings s)
    as (best & ds & m0 & o & tr & _ & _ & _ & Ht & _ & _ & _ & Hsc & Htg & _).
  cbv zeta in *. repeat split.
  - rewrite Hsc. unfold entered_epochs. eapply epochs_epoch_time. exact Ht.
  - intros tag Htag. rewrite Hsc, <- cadence_epochs_filter.
    eapply epochs_stat_scalars; eassumption.
  - rewrite Htg. eapply epochs_scalar_tags. exact Ht.
Qed.

(** C8: the training activity of a run is, pass after pass over the
    training loader, the pass and then one call of [model.step] per batch
    of the pass, in order, on the inputs of the batch and its labels
    one-hot encoded with [num_targets] classes; there is one pass per
    epoch whose body is entered. *)
Theorem one_step_per_batch (s : Store) :
  let hp := hparams s in
  let tr := events (run_experiment s) in
  training_view tr =
    flat_map (fun p => Pass (snd p)
                :: map (fun b => Step (fst b) (one_hot (snd b) (num_targets hp))) (snd p))
             (passes tr)
  /\ (exists hp' ds,
        In (EvDataServer hp' ds) tr
        /\ Forall (fun p => fst p = get_training_dataloader ds) (passes tr))
  /\ List.length (passes tr) =
       List.length (entered_epochs (num_epochs hp) (stats_every_num_epochs hp)).
Proof.
  destruct (run_experiment_readings s)
    as (best & ds & m0 & o & tr & He & _ & _ & Ht & _ & Hv & Hp & _).
  cbv zeta in *.
  destruct (epochs_training_view _ _ _ _ _ _ _ _ _ Ht) as (Htv & Htg & Hlen).
  rewrite Hv, Hp. repeat split; auto.
  exists (hparams_after (hparams s) best), ds. split; auto.
  rewrite He, app_assoc. apply in_setup_data_server.
Qed.

(** C10: [run_experiment] configures the device exactly when the
    selector is ["cpu"], by one call of [jax.config.update]; for any other
    value, ["tpu"] and ["gpu"] included, it makes no such call. *)
Theorem device_only_cpu (s : Store) :
  let tr := events (run_experiment s) in
  jax_config_updates tr =
    (if String.eqb (device (hparams s)) "cpu"
     then [("jax_platform_name", "cpu")] else [])
  /\ (device (hparams s) <> "cpu" -> jax_config_updates tr = [])
  /\ (device (hparams s) = "tpu" \/ device (hparams s) = "gpu" ->
      jax_config_updates tr = []).
Proof.
  destruct (run_experiment_readings s)
    as (best & ds & m0 & o & tr & _ & _ & _ & _ & _ & _ & _ & _ & _ & _ & _ & Hj & _).
  cbv zeta in *. rewrite Hj. repeat split.
  - intros Hd. apply String.eqb_neq in Hd. now rewrite Hd.
  - intros [-> | ->]; reflexivity.
Qed.

End Claims.

(** With a [step] that is a pure function (it leaves the model object as
    it is and returns the new parameter), the loop of [run_experiment]
    does not make the second call on the parameter the first call
    returned: C1 does not hold as stated. *)
Lemma returned_parameters_not_held :
  (forall m x y lr, fst (@Model_step _ _ toy_pure m x y lr) = m)
  /\ ~ holds_returned (E := toy_pure) (fun v => v) 0%Q
         (step_calls (events (run_experiment (E := toy_pure)
                                (toy_store (Some (1 # 2)%Q) 1 1 "cpu")))).
Proof.
  split; [reflexivity|].
  vm_compute. intros (_ & H & _). discriminate H.
Qed.

(** With a cadence of 2 the sink receives the epoch time of the first
    epoch, whose 1-based index is 1: C5 does not hold as stated. *)
Lemma epoch_time_off_cadence :
  ~ sink_only_on_cadence 2
      (events (run_experiment (E := toy_in_place) (toy_store None 1 2 "tpu"))).
Proof.
  intros H.
  assert (Hin : exists v, In (EvAddScalar "Epoch_time" v 0)
            (events (run_experiment (E := toy_in_place) (toy_store None 1 2 "tpu")))).
  { vm_compute. eexists. repeat first [left; reflexivity | right]. }
  destruct Hin as (v & Hin). apply H in Hin. discriminate Hin.
Qed.

(** With a cadence of 0 the first epoch raises [ZeroDivisionError] at
    the test of line 66: the run never reaches DONE, the writer and the
    log are not closed, and its events are not in the order of the four
    phases: C2 does not hold as stated. *)
Lemma zero_cadence_run_not_done :
  outcome (run_experiment (E := toy_in_place) (toy_store None 3 0 "tpu"))
    = Raised ZeroDivisionError
  /\ ~ In EvFileClose
         (events (run_experiment (E := toy_in_place) (toy_store None 3 0 "tpu")))
  /\ ~ in_phase_order
         (events (run_experiment (E := toy_in_place) (toy_store None 3 0 "tpu"))).
Proof.
  assert (Hno : ~ In EvFileClose
            (events (run_experiment (E := toy_in_place) (toy_store None 3 0 "tpu")))).
  { vm_compute. intuition discriminate. }
  split; [reflexivity|]. split; [exact Hno|].
  intros (init & search & run & Heq & _). apply Hno.
  rewrite Heq, !in_app_iff. do 3 right. right. now left.
Qed.

(** * The main script *)

Section MainScript.

Context {scalar : Type} {C : Carriers scalar} {E : Externals C}.

Lemma experiment_result title opt (s : Store) :
  let hp := update_bracket (float_literal (1 # 2)) (float_literal 2)
              (update_optimizer opt (hparams s)) in
  exists w,
  experiment title opt s =
  after [EvPrint title; EvPrintJson (to_dict hp)] (run_experiment (mkStore hp w)).
Proof.
  cbv zeta. unfold experiment. do 5 run_step.
  rewrite after_after. eexists. reflexivity.
Qed.

(** C3: [run_experiment] writes the rate found by the search into the
    dictionary it was given; in the main script the first experiment
    (SGD) finds the dictionary without a step size and searches, the
    second (SNG) finds the rate of the first in it, does not search, and
    trains with that rate: each of the two runs makes 100 passes over its
    training loader, with one call of [model.step] per batch, and every
    such call is given that rate as the step size. *)
Theorem second_experiment_reuses_rate (w : world) :
  let hp_sgd := update_bracket (float_literal (1 # 2)) (float_literal 2)
                  (update_optimizer "sgd" hparams_literal) in
  (forall s : Store, step_size (hparams s) = None ->
     exists best,
       search_calls (events (run_experiment s)) = [(hparams s, best)]
       /\ hparams (final (run_experiment s)) = set_step_size (Some best) (hparams s))
  /\ exists best s1 s2,
       hparams s1 = hp_sgd
       /\ step_size (hparams s1) = None
       /\ hparams (final (run_experiment s1)) = set_step_size (Some best) hp_sgd
       /\ hparams s2 = update_bracket (float_literal (1 # 2)) (float_literal 2)
                         (update_optimizer "sng" (set_step_size (Some best) hp_sgd))
       /\ step_size (hparams s2) = Some best
       /\ events (main w) =
            [EvPrint "Experiment SGD"; EvPrintJson (to_dict hp_sgd)]
            ++ events (run_experiment s1)
            ++ [EvPrint "Experiment SNG"; EvPrintJson (to_dict (hparams s2))]
            ++ events (run_experiment s2)
       /\ search_calls (events (run_experiment s1)) = [(hp_sgd, best)]
       /\ search_calls (events (run_experiment s2)) = []
       /\ Forall (fun c => call_lr c = best) (step_calls (events (run_experiment s2)))
       /\ outcome (main w) = Returned tt
       /\ hparams (final (run_experiment s2)) = hparams s2
       /\ List.length (passes (events (run_experiment s1))) = 100%nat
       /\ List.length (passes (events (run_experiment s2))) = 100%nat
       /\ exists ds1 ds2,
            In (EvDataServer (set_step_size (Some best) hp_sgd) ds1)
               (events (run_experiment s1))
            /\ In (EvDataServer (hparams s2) ds2) (events (run_experiment s2))
            /\ trains_with (get_training_dataloader ds1) best 10 (range 100)
                 (events (run_experiment s1))
            /\ trains_with (get_training_dataloader ds2) best 10 (range 100)
                 (events (run_experiment s2)).
Proof.
  cbv zeta. split.
  - intros s Hs.
    destruct (run_experiment_readings s)
      as (best & ds & m0 & o & tr & _ & _ & Hf & _ & _ & _ & _ & _ & _ & _ & Hsc & _).
    cbv zeta in *. exists best. rewrite Hsc, Hf. unfold hparams_after.
    rewrite Hs. auto.
  - unfold main, main_script.
    destruct (experiment_result "Experiment SGD" "sgd" (mkStore hparams_literal w))
      as (w1 & H1).
    cbv zeta in H1. cbn [hparams] in H1.
    set (hp_sgd := update_bracket _ _ (update_optimizer "sgd" hparams_literal)) in *.
    set (s1 := mkStore hp_sgd w1) in *.
    destruct (run_experiment_returns s1) as (best & w1' & tr1 & Hr1 & Hs1 & _).
    { cbn. discriminate. }
    cbn [hparams s1] in Hr1, Hs1.
    change (step_size hp_sgd) with (@None scalar) in Hs1.
    change (hparams_after hp_sgd best) with (set_step_size (Some best) hp_sgd) in Hr1.
    unfold bind. rewrite H1, Hr1. cbn [after].
    match goal with |- context [experiment ?t ?o ?s] =>
      destruct (experiment_result t o s) as (w2 & H2) end.
    cbv zeta in H2. cbn [hparams] in H2.
    set (hp_sng := update_bracket _ _ (update_optimizer "sng" _)) in *.
    set (s2 := mkStore hp_sng w2) in *.
    destruct (run_experiment_returns s2) as (best2 & w2' & tr2 & Hr2 & Hs2 & Hl2).
    { cbn. discriminate. }
    cbn [hparams s2] in Hr2, Hs2, Hl2.
    change (step_size hp_sng) with (Some best) in Hs2.
    change (chosen_step_size hp_sng best2) with best in Hl2.
    change (hparams_after hp_sng best2) with hp_sng in Hr2.
    destruct (run_experiment_trains s1) as (ds1 & lr1 & Hst1 & Hds1 & Htr1 & _).
    destruct (run_experiment_trains s2) as (ds2 & lr2 & Hst2 & Hds2 & Htr2 & _).
    rewrite Hr1 in Hst1, Hds1. rewrite Hr2 in Hst2, Hds2.
    cbn [final hparams events] in Hst1, Hds1, Hst2, Hds2.
    assert (lr1 = best) by (cbn in Hst1; congruence).
    assert (lr2 = best) by (cbn in Hst2; congruence).
    subst lr1 lr2.
    change (num_targets (hparams s1)) with 10 in Htr1.
    change (num_targets (hparams s2)) with 10 in Htr2.
    change (entered_epochs (num_epochs (hparams s1)) (stats_every_num_epochs (hparams s1)))
      with (range 100) in Htr1.
    change (entered_epochs (num_epochs (hparams s2)) (stats_every_num_epochs (hparams s2)))
      with (range 100) in Htr2.
    pose proof (proj1 Htr1) as Hlen1. pose proof (proj1 Htr2) as Hlen2.
    change (List.length (range 100)) with 100%nat in Hlen1, Hlen2.
    rewrite Hr1 in Hlen1, Htr1. rewrite Hr2 in Hlen2, Htr2.
    cbn [events] in Hlen1, Htr1, Hlen2, Htr2.
    rewrite H2, Hr2. cbn [after events outcome].
    exists best, s1, s2. rewrite Hr1, Hr2. cbn [events final hparams s1 s2].
    refine (conj eq_refl (conj eq_refl (conj eq_refl (conj eq_refl (conj eq_refl
             (conj eq_refl (conj Hs1 (conj Hs2 (conj Hl2 (conj eq_refl (conj eq_refl
             (conj Hlen1 (conj Hlen2 _))))))))))))).
    exists ds1, ds2. auto.
Qed.

End MainScript.

(** * The configuration *)

(** C6 (amended): the dictionary of the main script has these fourteen
    entries; of the items of the specification it has a field for the step
    size (null in the literal), the number of epochs, the batch size, the
    bracket, the number of candidates, the number of trial epochs and the
    device, and none for the shard count, the clip bound and the
    stabilizing constant. *)
Theorem configuration_fields (scalar : Type) (hp : HParams scalar) :
  leaf_paths (to_dict hp) =
    [ ["dataset"]; ["layer_sizes"];
      ["lr_search"; "lr_min"]; ["lr_search"; "lr_max"];
      ["lr_search"; "num_steps"]; ["lr_search"; "num_epochs"];
      ["step_size"]; ["num_epochs"]; ["batch_size"]; ["num_targets"];
      ["num_workers"]; ["stats_every_num_epochs"]; ["optimizer"]; ["device"] ]
  /\ map (fun item => (item, has_field (to_dict hp) item)) all_config_items =
    [ (CfgStepSize, true); (CfgNumEpochs, true); (CfgBatchSize, true);
      (CfgShardCount, false); (CfgClipBound, false); (CfgEpsilon, false);
      (CfgLrMin, true); (CfgLrMax, true); (CfgNumCandidates, true);
      (CfgTrialEpochs, true); (CfgDevice, true) ]
  /\ dict_get (to_dict (@hparams_literal scalar)) "step_size" = Some VNone.
Proof.
  assert (Hl : leaf_paths (to_dict hp) =
    [ ["dataset"]; ["layer_sizes"];
      ["lr_search"; "lr_min"]; ["lr_search"; "lr_max"];
      ["lr_search"; "num_steps"]; ["lr_search"; "num_epochs"];
      ["step_size"]; ["num_epochs"]; ["batch_size"]; ["num_targets"];
      ["num_workers"]; ["stats_every_num_epochs"]; ["optimizer"]; ["device"] ]).
  { unfold leaf_paths, to_dict, opt_value. cbn.
    destruct (step_size hp), (optimizer hp); reflexivity. }
  split; [exact Hl|]. split; [|reflexivity].
  unfold has_field. rewrite Hl. reflexivity.
Qed.

(** The dictionary has no field for the shard count (nor for the clip
    bound, nor for the stabilizing constant): C6 does not hold as
    stated. *)
Lemma no_field_for_shards_clip_epsilon :
  ~ (forall item, In item all_config_items ->
       has_field (to_dict (@hparams_literal Q)) item = true).
Proof.
  intros H. specialize (H CfgShardCount). cbn in H.
  assert (Hf : false = true) by (apply H; tauto). discriminate Hf.
Qed.

(** * The learning-rate search *)

Section SearchFacts.

Local Open Scope R_scope.

Lemma candidate_in_bracket lo hi n i :
  0 < lo -> lo < hi -> (i < n)%nat ->
  lo <= LRSearch.candidate lo hi n i <= hi.
Proof.
  intros Hlo Hhi Hi. unfold LRSearch.candidate.
  assert (Ht : 0 <= INR i / INR (n - 1) <= 1).
  { destruct (Nat.eq_dec (n - 1) 0) as [Hn|Hn].
    - assert (i = 0%nat) by lia. subst i. cbn [INR].
      unfold Rdiv. rewrite Rmult_0_l. lra.
    - assert (Hd : 0 < INR (n - 1)) by (apply lt_0_INR; lia).
      assert (Hle : INR i <= INR (n - 1)) by (apply le_INR; lia).
      pose proof (pos_INR i) as Hp.
      pose proof (Rinv_0_lt_compat _ Hd) as Hq.
      pose proof (Rinv_r (INR (n - 1)) (Rgt_not_eq _ _ Hd)) as Hr.
      unfold Rdiv. set (q := / INR (n - 1)) in *. nra. }
  assert (Hratio : 1 <= hi / lo).
  { pose proof (Rinv_0_lt_compat _ Hlo) as Hq.
    pose proof (Rinv_r lo (Rgt_not_eq _ _ Hlo)) as Hr.
    unfold Rdiv. set (q := / lo) in *. nra. }
  assert (Hpos : 0 < hi / lo) by lra.
  pose proof (Rle_Rpower (hi / lo) 0 (INR i / INR (n - 1)) Hratio (proj1 Ht)) as H0.
  pose proof (Rle_Rpower (hi / lo) (INR i / INR (n - 1)) 1 Hratio (proj2 Ht)) as H1.
  rewrite Rpower_O in H0 by exact Hpos.
  rewrite Rpower_1 in H1 by exact Hpos.
  set (p := Rpower (hi / lo) (INR i / INR (n - 1))) in *.
  assert (Hhi' : lo * (hi / lo) = hi) by (field; lra).
  split.
  - nra.
  - rewrite <- Hhi'. apply Rmult_le_compat_l; lra.
Qed.

(** The candidates start at [lo] and, when there are at least two, end
    at [hi]. *)
Lemma candidate_first lo hi n :
  0 < lo -> lo < hi -> LRSearch.candidate lo hi n 0 = lo.
Proof.
  intros Hlo Hhi. unfold LRSearch.candidate. cbn [INR].
  unfold Rdiv at 2. rewrite Rmult_0_l, Rpower_O.
  - lra.
  - apply Rdiv_lt_0_compat; lra.
Qed.

Lemma candidate_last lo hi n :
  0 < lo -> lo < hi -> (2 <= n)%nat -> LRSearch.candidate lo hi n (n - 1) = hi.
Proof.
  intros Hlo Hhi Hn. unfold LRSearch.candidate.
  assert (Hd : 0 < INR (n - 1)) by (apply lt_0_INR; lia).
  replace (INR (n - 1) / INR (n - 1)) with 1 by (field; lra).
  rewrite Rpower_1 by (apply Rdiv_lt_0_compat; lra).
  field. lra.
Qed.

(** A candidate before the last one is below [hi]. *)
Lemma candidate_below_last lo hi n i :
  0 < lo -> lo < hi -> (i < n - 1)%nat -> LRSearch.candidate lo hi n i < hi.
Proof.
  intros Hlo Hhi Hi. unfold LRSearch.candidate.
  assert (Hd : 0 < INR (n - 1)) by (apply lt_0_INR; lia).
  assert (Hlt : INR i < INR (n - 1)) by (apply lt_INR; exact Hi).
  assert (Ht : INR i / INR (n - 1) < 1).
  { apply (Rmult_lt_reg_r (INR (n - 1))); [exact Hd|].
    unfold Rdiv. rewrite Rmult_assoc, Rinv_l by lra. lra. }
  assert (Hratio : 1 < hi / lo).
  { apply (Rmult_lt_reg_r lo); [exact Hlo|].
    unfold Rdiv. rewrite Rmult_assoc, Rinv_l by lra. lra. }
  pose proof (Rpower_lt (hi / lo) _ _ Hratio Ht) as Hp.
  rewrite Rpower_1 in Hp by lra.
  assert (Hhi' : lo * (hi / lo) = hi) by (field; lra).
  rewrite <- Hhi' at 2. apply Rmult_lt_compat_l; assumption.
Qed.

(** Four candidates on [[1/2, 2]]: the first is 1/2 and the last is 2. *)
Example four_candidates :
  List.length (LRSearch.candidates (1 / 2) 2 4) = 4%nat
  /\ nth 0 (LRSearch.candidates (1 / 2) 2 4) 0 = 1 / 2
  /\ nth 3 (LRSearch.candidates (1 / 2) 2 4) 0 = 2.
Proof.
  split; [reflexivity|]. split.
  - apply candidate_first; lra.
  - apply (candidate_last (1 / 2) 2 4); [lra|lra|lia].
Qed.

Variable trial_loss : R -> Z -> option R.

Lemma fold_better_in k cands : forall acc lr l,
  fold_left (LRSearch.better trial_loss k) cands acc = Some (lr, l) ->
  In lr cands \/ exists l', acc = Some (lr, l').
Proof.
  induction cands as [|c cands IH]; intros acc lr l H; cbn in H.
  - right. eauto.
  - apply IH in H. destruct H as [H|(l' & H)].
    + left. now right.
    + unfold LRSearch.better in H.
      destruct (trial_loss c k) as [lc|]; [|right; eauto].
      destruct acc as [[lb vb]|].
      * destruct (Rlt_dec lc vb); [|right; eauto].
        inversion H; subst. left. now left.
      * inversion H; subst. left. now left.
Qed.

Lemma select_in cands k lr l :
  LRSearch.select trial_loss cands k = Some (lr, l) -> In lr cands.
Proof.
  intros H. apply fold_better_in in H. destruct H as [H|(l' & H)]; [exact H|discriminate].
Qed.

Lemma search_best_in_bracket lo hi n k lr :
  LRSearch.search trial_loss lo hi n k = LRSearch.Best lr -> lo <= lr <= hi.
Proof.
  unfold LRSearch.search.
  destruct (Rlt_dec 0 lo) as [Hlo|]; [|discriminate].
  destruct (Rlt_dec lo hi) as [Hhi|]; [|discriminate].
  destruct ((0 <? n)%Z && (0 <? k)%Z); [|discriminate].
  destruct (LRSearch.select trial_loss _ k) as [[lr' l]|] eqn:Hs; [|discriminate].
  intros H. inversion H; subst lr'.
  apply select_in in Hs. unfold LRSearch.candidates in Hs.
  apply in_map_iff in Hs. destruct Hs as (i & <- & Hi).
  apply in_seq in Hi. apply candidate_in_bracket; auto. lia.
Qed.

End SearchFacts.

(** A search as specified returns a rate within the bracket of the
    dictionary it is called on. *)
Lemma specified_search_within (hp : HParams R) (best : R) :
  specified_search hp best -> within_bracket hp best.
Proof.
  intros (trial & lo & hi & Hlo & Hhi & Hs).
  exists lo, hi. refine (conj Hlo (conj Hhi _)).
  eapply search_best_in_bracket. exact Hs.
Qed.

(** The search of the instance over the real numbers: of the four
    candidates on [[1/2, 2]] the first three are below 2 and have the loss
    1, the last one is 2 and has the loss 0; the search returns 2. *)
Lemma real_search_best :
  LRSearch.search real_trial (1 / 2) 2 4 1 = LRSearch.Best 2%R.
Proof.
  unfold LRSearch.search.
  destruct (Rlt_dec 0 (1 / 2)) as [_|H]; [|exfalso; apply H; lra].
  destruct (Rlt_dec (1 / 2) 2) as [_|H]; [|exfalso; apply H; lra].
  change ((0 <? 4) && (0 <? 1)) with true. cbv iota.
  change (Z.to_nat 4) with 4%nat.
  assert (H0 : (LRSearch.candidate (1 / 2) 2 4 0 < 2)%R)
    by (apply candidate_below_last; [lra|lra|cbn; lia]).
  assert (H1 : (LRSearch.candidate (1 / 2) 2 4 1 < 2)%R)
    by (apply candidate_below_last; [lra|lra|cbn; lia]).
  assert (H2 : (LRSearch.candidate (1 / 2) 2 4 2 < 2)%R)
    by (apply candidate_below_last; [lra|lra|cbn; lia]).
  assert (H3 : LRSearch.candidate (1 / 2) 2 4 3 = 2%R)
    by (apply (candidate_last (1 / 2) 2 4); [lra|lra|lia]).
  unfold LRSearch.candidates, LRSearch.select. cbn [seq map fold_left].
  rewrite H3.
  unfold LRSearch.better, real_trial.
  repeat (match goal with
          | |- context [Rlt_dec ?a ?b] =>
              destruct (Rlt_dec a b); try (exfalso; lra)
          end; cbv iota beta).
  reflexivity.
Qed.

Lemma real_search_specified :
  real_search real_hparams = 2%R /\ specified_search real_hparams 2.
Proof.
  assert (H : real_search real_hparams = 2%R).
  { unfold real_search. cbn [real_hparams lr_search lr_min lr_max num_steps lr_num_epochs].
    now rewrite real_search_best. }
  split; [exact H|].
  exists real_trial, (1 / 2)%R, 2%R.
  refine (conj eq_refl (conj eq_refl _)). exact real_search_best.
Qed.

(** C7 (amended): a search as specified that returns a rate returns it
    within the bracket. In a run in which every call of
    [learning_rate_search] is such a search on the dictionary it is given,
    the step size the run trains with (one call of [model.step] per batch
    of each pass, all with this step size) is the one the dictionary holds
    afterwards; without a configured step size it is the result of the
    one search and lies within the bracket, and a configured step size is
    used as it is, without a search. *)
Theorem searched_step_size_in_bracket {C : Carriers R} {E : Externals C} (s : Store) :
  let hp := hparams s in
  let r := run_experiment s in
  (forall hp' best, In (hp', best) (search_calls (events r)) ->
     specified_search hp' best) ->
  exists ds lr,
    step_size (hparams (final r)) = Some lr
    /\ In (EvDataServer (hparams (final r)) ds) (events r)
    /\ trains_with (get_training_dataloader ds) lr (num_targets hp)
         (entered_epochs (num_epochs hp) (stats_every_num_epochs hp)) (events r)
    /\ Forall (fun c => call_lr c = lr) (step_calls (events r))
    /\ (step_size hp = None ->
          search_calls (events r) = [(hp, lr)]
          /\ within_bracket hp lr
          /\ steps_in_bracket Rle hp (events r))
    /\ (forall lr0, step_size hp = Some lr0 ->
          search_calls (events r) = [] /\ lr = lr0)
    /\ (forall hp' best, In (hp', best) (search_calls (events r)) ->
          within_bracket hp' best)
    /\ (forall trial lo hi n k best,
          LRSearch.search trial lo hi n k = LRSearch.Best best ->
          (lo <= best <= hi)%R).
Proof.
  cbv zeta. intros Hspec.
  destruct (run_experiment_training s)
    as (best & ds & m0 & o & tr & _ & _ & Hf & _ & _ & Hsc & _ & _ & Hrun & Hds & _
        & Hst & Hlr).
  cbv zeta in *.
  exists ds, (chosen_step_size (hparams s) best). rewrite Hf.
  refine (conj Hst (conj Hds (conj Hrun (conj Hlr (conj _ (conj _ (conj _ _))))))).
  - intros Hnone. unfold chosen_step_size in *. rewrite Hnone in *.
    assert (Hw : within_bracket (hparams s) best).
    { apply specified_search_within, Hspec. rewrite Hsc. now left. }
    refine (conj Hsc (conj Hw _)).
    intros lo hi Hlo Hhi. destruct Hw as (lo' & hi' & Hlo' & Hhi' & Hin).
    assert (lo' = lo) by congruence. assert (hi' = hi) by congruence. subst lo' hi'.
    eapply Forall_impl; [|exact Hlr]. cbv beta. now intros c ->.
  - intros lr0 Hsome. unfold chosen_step_size. rewrite Hsome in *. auto.
  - intros hp' b Hin. apply specified_search_within, Hspec, Hin.
  - intros trial lo hi n k b. apply search_best_in_bracket.
Qed.

(** The run of the instance over the real numbers: the search is made
    once, over four candidates, and returns 2, the upper end of the
    bracket; the steps are made with it. *)
Lemma real_run_search :
  search_calls (events (run_experiment (E := toy_real)
                          (mkStore real_hparams (0 : @world _ (toy_carriers R)))))
  = [(real_hparams, 2%R)].
Proof.
  destruct (run_experiment_training (E := toy_real)
              (mkStore real_hparams (0 : @world _ (toy_carriers R))))
    as (best & ds & m0 & o & tr & _ & _ & _ & _ & _ & Hsc & Hb & _).
  cbv zeta in *. cbn [hparams] in Hsc, Hb.
  destruct (Hb eq_refl) as (w0 & ->).
  rewrite Hsc.
  change (fst (@learning_rate_search _ _ toy_real real_hparams w0))
    with (real_search real_hparams).
  now rewrite (proj1 real_search_specified).
Qed.

Lemma searched_step_size_in_bracket_witness :
  search_calls (events (run_experiment (E := toy_real)
                          (mkStore real_hparams (0 : @world _ (toy_carriers R)))))
    = [(real_hparams, 2%R)]
  /\ within_bracket real_hparams 2
  /\ steps_in_bracket Rle real_hparams
       (events (run_experiment (E := toy_real)
                  (mkStore real_hparams (0 : @world _ (toy_carriers R)))))
  /\ map call_lr
       (step_calls (events (run_experiment (E := toy_real)
                              (mkStore real_hparams (0 : @world _ (toy_carriers R))))))
     = [2%R; 2%R].
Proof.
  destruct (searched_step_size_in_bracket (E := toy_real)
              (mkStore real_hparams (0 : @world _ (toy_carriers R))))
    as (ds & lr & _ & _ & _ & _ & Hnone & _).
  - intros hp' best Hin. rewrite real_run_search in Hin.
    destruct Hin as [Heq|[]]. inversion Heq; subst.
    exact (proj2 real_search_specified).
  - destruct (Hnone eq_refl) as (Hsc & Hw & Hb).
    assert (Hlr : lr = 2%R).
    { rewrite real_run_search in Hsc. now inversion Hsc. }
    subst lr. refine (conj Hsc (conj Hw (conj Hb _))).
    change (map call_lr
              (step_calls (events (run_experiment (E := toy_real)
                 (mkStore real_hparams (0 : @world _ (toy_carriers R)))))))
      with [real_search real_hparams; real_search real_hparams].
    now rewrite (proj1 real_search_specified).
Defined.

(** A configured step size of 0.01 is used as it is, with the bracket
    [[1/2, 2]] in the dictionary: C7 does not hold as stated. *)
Lemma configured_step_size_outside_bracket :
  ~ steps_in_bracket Qle (toy_hparams (Some (1 # 100)%Q) 1 1 "cpu")
      (events (run_experiment (E := toy_in_place)
                 (toy_store (Some (1 # 100)%Q) 1 1 "cpu"))).
Proof.
  intros H. specialize (H (1 # 2)%Q 2%Q eq_refl eq_refl).
  vm_compute in H. inversion H as [|c l [Hlo _] _]. apply Hlo. reflexivity.
Qed.

(** * The SNG step *)

Section SNGFacts.

Local Open Scope Q_scope.

Lemma clip_bounds lo hi x : lo <= hi -> lo <= SNG.clip lo hi x <= hi.
Proof.
  intros H. unfold SNG.clip. split.
  - apply Q.min_glb; [apply Q.le_max_r|exact H].
  - apply Q.le_min_r.
Qed.

Lemma ratio_bounds cfg g s :
  0 <= SNG.r_max cfg ->
  - SNG.r_max cfg <= SNG.ratio cfg g s <= SNG.r_max cfg.
Proof.
  intros H. apply clip_bounds.
  apply Qle_trans with 0; [|exact H].
  rewrite <- (Qopp_involutive 0). apply Qopp_le_compat. exact H.
Qed.

Lemma nth_error_combine {A B} (l : list A) : forall (l' : list B) i a b,
  nth_error l i = Some a -> nth_error l' i = Some b ->
  nth_error (combine l l') i = Some (a, b).
Proof.
  induction l as [|x l IH]; intros [|y l'] [|i] a b Ha Hb;
    cbn in *; try discriminate.
  - congruence.
  - apply IH; assumption.
Qed.

Lemma update_tensor_nth cfg lr p st i pi gi si :
  nth_error p i = Some pi ->
  nth_error (SNG.mean st) i = Some gi ->
  nth_error (SNG.std st) i = Some si ->
  nth_error (SNG.update_tensor cfg lr p st) i = Some (pi - lr * SNG.ratio cfg gi si).
Proof.
  intros Hp Hg Hs. unfold SNG.update_tensor.
  rewrite nth_error_map.
  rewrite (nth_error_combine _ _ _ _ _ Hp (nth_error_combine _ _ _ _ _ Hg Hs)).
  reflexivity.
Qed.

End SNGFacts.

(** C9: in an SNG step that succeeds, with a clip bound that is not
    negative, every layer of the new tree is the layer of the old one
    updated elementwise: the clipped ratio [r = mean / (std + eps)] lies in
    [[-r_max, r_max]] and the element becomes [param - step_size * r]. *)
Theorem sng_ratio_clipped (batch : Type)
    (estimate : SNG.ParameterTree -> batch -> Z -> SNG.GradientStatistics)
    (cfg : SNG.Config) (params : SNG.ParameterTree) (b : batch) (lr : Q)
    (params' : SNG.ParameterTree) (k : nat) (W B : SNG.Tensor)
    (sW sB : SNG.Statistics) :
  (0 <= SNG.r_max cfg)%Q ->
  SNG.step batch estimate cfg params b lr = inl params' ->
  nth_error params k = Some (W, B) ->
  nth_error (estimate params b (SNG.num_shards cfg)) k = Some (sW, sB) ->
  exists W' B',
    nth_error params' k = Some (W', B')
    /\ SNG.elementwise cfg lr W sW W'
    /\ SNG.elementwise cfg lr B sB B'.
Proof.
  intros Hr Hstep Hp Hs. unfold SNG.step in Hstep.
  destruct (SNG.num_shards cfg <=? 1)%Z; [discriminate|].
  destruct (Qle_bool lr 0); [discriminate|].
  inversion Hstep; subst params'; clear Hstep.
  exists (SNG.update_tensor cfg lr W sW), (SNG.update_tensor cfg lr B sB).
  split.
  - rewrite nth_error_map, (nth_error_combine _ _ _ _ _ Hp Hs). reflexivity.
  - split; intros i pi gi si Hpi Hgi Hsi;
      exists (SNG.ratio cfg gi si);
      (split; [reflexivity|split; [apply ratio_bounds; exact Hr|]]);
      apply update_tensor_nth; assumption.
Qed.

(** The step on the layer [sng_params]: the first weight has a ratio of
    300, clipped to 1. *)
Example sng_step_example :
  SNG.step unit sng_estimate sng_config sng_params tt (1 # 10)%Q
  = inl [([0.9; 2120 # 1010]%Q, [-100 # 1010]%Q)].
Proof. reflexivity. Qed.

(** With a negative clip bound the clipped ratio is outside
    [[-r_max, r_max]], which is empty. *)
Example negative_clip_bound :
  SNG.ratio (SNG.mkConfig 2 (-1)%Q (1 # 100)%Q) 3%Q 0%Q = (-1)%Q.
Proof. reflexivity. Qed.

Lemma sng_ratio_clipped_witness :
  exists W' B',
    nth_error [([0.9; 2120 # 1010]%Q, [-100 # 1010]%Q)] 0 = Some (W', B')
    /\ SNG.elementwise sng_config (1 # 10)%Q [1; 2]%Q
         (SNG.mkStatistics [3; -1]%Q [0; 1]%Q) W'
    /\ SNG.elementwise sng_config (1 # 10)%Q [0]%Q
         (SNG.mkStatistics [1]%Q [1]%Q) B'.
Proof.
  apply (sng_ratio_clipped unit sng_estimate sng_config sng_params tt (1 # 10)%Q
           [([0.9; 2120 # 1010]%Q, [-100 # 1010]%Q)] 0%nat [1; 2]%Q [0]%Q
           (SNG.mkStatistics [3; -1]%Q [0; 1]%Q) (SNG.mkStatistics [1]%Q [1]%Q)).
  - vm_compute. discriminate.
  - reflexivity.
  - reflexivity.
  - reflexivity.
Defined.

(** * Further properties of the driver *)

(** ** Readings that the epoch loop leaves empty *)

Section LoopEvents.

Context {scalar : Type} {C : Carriers scalar} {E : Externals C}.

Lemma flat_map_nil_on {A B} (f : A -> list B) (l : list A) :
  Forall (fun a => f a = []) l -> flat_map f l = [].
Proof.
  induction 1 as [|a l Ha _ IH]; [reflexivity|].
  cbn. now rewrite Ha, IH.
Qed.

Lemma steps_loop_events lr targets bs : forall m,
  Forall (fun ev => is_loop_event ev = true) (steps_trace lr targets m bs).
Proof.
  induction bs as [|b bs IH]; intros m; cbn; constructor.
  - reflexivity.
  - apply IH.
Qed.

Lemma epoch_loop_events tg teg lr targets cadence m e tr o :
  epoch_trace tg teg lr targets cadence m e tr o ->
  Forall (fun ev => is_loop_event ev = true) tr.
Proof.
  intros H; inversion H; subst;
    repeat (apply Forall_app; split); try apply steps_loop_events;
    repeat constructor.
Qed.

Lemma epochs_loop_events tg teg lr targets cadence m es tr o :
  epochs_trace tg teg lr targets cadence m es tr o ->
  Forall (fun ev => is_loop_event ev = true) tr.
Proof.
  induction 1.
  - constructor.
  - apply Forall_app; split; eauto using epoch_loop_events.
  - eauto using epoch_loop_events.
Qed.

Lemma loop_events_silent (tr : list (Event C)) :
  Forall (fun ev => is_loop_event ev = true) tr ->
  opens tr = [] /\ constructed_with tr = [] /\ close_calls tr = [].
Proof.
  induction 1 as [|ev tr Hev _ (IH1 & IH2 & IH3)]; [auto|].
  destruct ev; try discriminate Hev; cbn; auto.
Qed.

(** What is printed during the epoch loop is what is written to the
    log, line by line. *)
Lemma prints_steps lr targets bs : forall m,
  prints (steps_trace lr targets m bs) = [].
Proof. induction bs as [|b bs IH]; intros m; [reflexivity|apply IH]. Qed.

Lemma prints_app (tr tr' : list (Event C)) :
  prints (tr ++ tr') = prints tr ++ prints tr'.
Proof. apply flat_map_app. Qed.

Lemma epochs_prints tg teg lr targets cadence m es tr o :
  epochs_trace tg teg lr targets cadence m es tr o ->
  file_writes tr = map (fun msg => (msg ++ newline)%string) (prints tr).
Proof.
  induction 1 as [|m e es tr m' tr' o H _ IH|m e es tr x H].
  - reflexivity.
  - rewrite file_writes_app, prints_app, map_app, IH. f_equal.
    inversion H; subst; rewrite !file_writes_app, !prints_app,
      file_writes_steps, prints_steps; reflexivity.
  - inversion H; subst; rewrite !file_writes_app, !prints_app,
      file_writes_steps, prints_steps; reflexivity.
Qed.

(** The state of the model object along the epoch loop. *)
Lemma consistent_app (tr tr' : list (Event C)) : forall m,
  consistent m (tr ++ tr') <-> consistent m tr /\ consistent (state_after m tr) tr'.
Proof.
  induction tr as [|ev tr IH]; intros m; cbn.
  - tauto.
  - destruct ev; cbn; rewrite ?IH; tauto.
Qed.

Lemma state_after_app (tr tr' : list (Event C)) : forall m,
  state_after m (tr ++ tr') = state_after (state_after m tr) tr'.
Proof.
  induction tr as [|ev tr IH]; intros m; cbn; [reflexivity|].
  destruct ev; apply IH.
Qed.

Lemma steps_consistent lr targets bs : forall m,
  consistent m (steps_trace lr targets m bs)
  /\ state_after m (steps_trace lr targets m bs) = trained lr targets m bs.
Proof.
  induction bs as [|b bs IH]; intros m; cbn; [auto|].
  destruct (IH (fst (Model_step m (fst b) (one_hot (snd b) targets) lr))) as (H1 & H2).
  auto.
Qed.

Lemma epoch_consistent tg teg lr targets cadence m e tr o :
  epoch_trace tg teg lr targets cadence m e tr o ->
  consistent m tr
  /\ exists bs, state_after m tr = trained lr targets m bs
                /\ (forall m', o = Returned m' -> m' = trained lr targets m bs).
Proof.
  intros H; inversion H; subst;
    destruct (steps_consistent lr targets bs m) as (Hc & Hs);
    (split; [|exists bs; split; [|congruence]]);
    rewrite ?consistent_app, ?state_after_app; cbn;
    rewrite ?consistent_app, ?state_after_app, ?Hs; cbn; auto.
Qed.

Lemma epochs_consistent tg teg lr targets cadence m es tr o :
  epochs_trace tg teg lr targets cadence m es tr o ->
  consistent m tr.
Proof.
  induction 1 as [|m e es tr m' tr' o H _ IH|m e es tr x H].
  - exact I.
  - destruct (epoch_consistent _ _ _ _ _ _ _ _ _ H) as (H1 & bs & H2 & H3).
    apply consistent_app. split; [exact H1|].
    rewrite H2, <- (H3 m' eq_refl). exact IH.
  - apply (epoch_consistent _ _ _ _ _ _ _ _ _ H).
Qed.

End LoopEvents.

(** ** The whole run *)

(** The number of multiples of [c] among [1, ..., n]. *)
Lemma div_succ n c :
  0 < c -> 0 <= n ->
  (n + 1) / c = n / c + (if (n + 1) mod c =? 0 then 1 else 0).
Proof.
  intros Hc Hn.
  pose proof (Z.div_mod n c ltac:(lia)) as Hd.
  pose proof (Z.mod_pos_bound n c Hc) as Hb.
  destruct (Z.eq_dec (n mod c + 1) c) as [He|He].
  - assert (Hm : (n + 1) mod c = 0).
    { symmetry. apply (Z.mod_unique_pos _ _ (n / c + 1)); lia. }
    rewrite Hm. cbn. symmetry. apply (Z.div_unique_pos _ _ _ 0); lia.
  - assert (Hm : (n + 1) mod c = n mod c + 1).
    { symmetry. apply (Z.mod_unique_pos _ _ (n / c)); lia. }
    rewrite Hm. destruct (Z.eqb_spec (n mod c + 1) 0); [lia|].
    symmetry. apply (Z.div_unique_pos _ _ _ (n mod c + 1)); lia.
Qed.

Lemma multiples_below c (k : nat) :
  0 < c ->
  List.length (filter (fun e => (e + 1) mod c =? 0) (map Z.of_nat (seq 0 k)))
  = Z.to_nat (Z.of_nat k / c).
Proof.
  intros Hc. induction k as [|k IH].
  - reflexivity.
  - rewrite seq_S, map_app, filter_app, length_app, IH. cbn [map filter Nat.add].
    rewrite Nat2Z.inj_succ, <- Z.add_1_r, (div_succ (Z.of_nat k) c) by lia.
    pose proof (Z.div_pos (Z.of_nat k) c ltac:(lia) Hc).
    destruct (Z.eqb_spec ((Z.of_nat k + 1) mod c) 0); cbn [List.length]; lia.
Qed.

Lemma cadence_epochs_length n c :
  0 < c -> 0 <= n -> List.length (cadence_epochs n c) = Z.to_nat (n / c).
Proof.
  intros Hc Hn. unfold cadence_epochs, range, is_multiple.
  destruct (Z.eqb_spec c 0) as [->|_]; [lia|].
  rewrite multiples_below by exact Hc. now rewrite Z2Nat.id.
Qed.

Section RunProperties.

Context {scalar : Type} {C : Carriers scalar} {E : Externals C}.

Lemma close_calls_app (tr tr' : list (Event C)) :
  close_calls (tr ++ tr') = close_calls tr ++ close_calls tr'.
Proof. apply filter_app. Qed.

Lemma opens_app (tr tr' : list (Event C)) :
  opens (tr ++ tr') = opens tr ++ opens tr'.
Proof. apply flat_map_app. Qed.

Lemma constructed_with_app (tr tr' : list (Event C)) :
  constructed_with (tr ++ tr') = constructed_with tr ++ constructed_with tr'.
Proof. apply flat_map_app. Qed.

Ltac by_phase hp o :=
  unfold init_trace, search_part, search_trace, setup_trace, done_trace;
  try destruct (String.eqb (device hp) "cpu");
  try destruct (step_size hp);
  try destruct o;
  repeat split; reflexivity.

Lemma phases_opens (hp hp' : HParams scalar) best ds m0 (o : Outcome model) :
  opens (init_trace hp) = [((opt_str (optimizer hp) ++ "_training.txt")%string, "w")]
  /\ opens (search_part hp best) = []
  /\ opens (setup_trace hp' ds m0) = []
  /\ opens (done_trace o) = []
  /\ file_writes (init_trace hp) = []
  /\ file_writes (search_part hp best) = []
  /\ file_writes (setup_trace hp' ds m0) = [].
Proof. by_phase hp o. Qed.

Lemma phases_constructed (hp hp' : HParams scalar) best ds m0 (o : Outcome model) :
  constructed_with (init_trace hp) = []
  /\ constructed_with (search_part hp best) = []
  /\ constructed_with (setup_trace hp' ds m0) = [hp'; hp']
  /\ constructed_with (done_trace o) = [].
Proof. by_phase hp o. Qed.

Lemma phases_closes (hp hp' : HParams scalar) best ds m0 (o : Outcome model) :
  close_calls (init_trace hp) = []
  /\ close_calls (search_part hp best) = []
  /\ close_calls (setup_trace hp' ds m0) = []
  /\ close_calls (done_trace o) = done_trace o.
Proof. by_phase hp o. Qed.

Lemma phases_prints (hp hp' : HParams scalar) best ds m0 (o : Outcome model) :
  prints (init_trace hp) = []
  /\ prints (search_part hp best) =
       match step_size hp with
       | None => [("best_lr = " ++ float_str best)%string]
       | Some _ => []
       end
  /\ prints (setup_trace hp' ds m0) = []
  /\ prints (done_trace o) = [].
Proof. by_phase hp o. Qed.

Lemma phases_consistent (hp hp' : HParams scalar) best ds m0 (o : Outcome model) m :
  consistent m (init_trace hp ++ search_part hp best ++ setup_trace hp' ds m0)
  /\ state_after m (init_trace hp ++ search_part hp best ++ setup_trace hp' ds m0) = m0
  /\ forall m', consistent m' (done_trace o).
Proof.
  unfold init_trace, search_part, search_trace, setup_trace, done_trace.
  destruct (String.eqb (device hp) "cpu"), (step_size hp), o; cbn; auto.
Qed.

(** A run read through the further observations. *)
Lemma run_experiment_more_readings (s : Store) :
  exists best ds m0 o tr,
  let hp := hparams s in
  let hp' := hparams_after hp best in
  let r := run_experiment s in
  events r = init_trace hp ++ search_part hp best ++ setup_trace hp' ds m0
               ++ tr ++ done_trace o
  /\ outcome r = match o with Returned _ => Returned tt | Raised x => Raised x end
  /\ hparams (final r) = hp'
  /\ epochs_trace (get_training_dataloader ds) (get_test_dataloader ds)
       (chosen_step_size hp best) (num_targets hp) (stats_every_num_epochs hp)
       m0 (range (num_epochs hp)) tr o
  /\ opens (events r) = [((opt_str (optimizer hp) ++ "_training.txt")%string, "w")]
  /\ constructed_with (events r) = [hp'; hp']
  /\ close_calls (events r) = done_trace o
  /\ prints (events r) =
       match step_size hp with
       | None => [("best_lr = " ++ float_str best)%string]
       | Some _ => []
       end ++ prints tr
  /\ forall m, consistent m (events r).
Proof.
  destruct (run_experiment_readings s)
    as (best & ds & m0 & o & tr & He & Ho & Hf & Ht & _).
  cbv zeta in *. exists best, ds, m0, o, tr.
  pose proof (epochs_loop_events _ _ _ _ _ _ _ _ _ Ht) as Hl.
  destruct (loop_events_silent _ Hl) as (L1 & L2 & L3).
  set (hp := hparams s) in *. set (hp' := hparams_after hp best) in *.
  destruct (phases_opens hp hp' best ds m0 o) as (O1 & O2 & O3 & O4 & _).
  destruct (phases_constructed hp hp' best ds m0 o) as (K1 & K2 & K3 & K4).
  destruct (phases_closes hp hp' best ds m0 o) as (Q1 & Q2 & Q3 & Q4).
  destruct (phases_prints hp hp' best ds m0 o) as (P1 & P2 & P3 & P4).
  refine (conj He (conj Ho (conj Hf (conj Ht (conj _ (conj _ (conj _ (conj _ _)))))))).
  - rewrite He, !opens_app, O1, O2, O3, O4, L1. reflexivity.
  - rewrite He, !constructed_with_app, K1, K2, K3, K4, L2. reflexivity.
  - rewrite He, !close_calls_app, Q1, Q2, Q3, Q4, L3. reflexivity.
  - rewrite He, !prints_app, P1, P2, P3, P4, app_nil_r. reflexivity.
  - intros m. rewrite He.
    destruct (phases_consistent hp hp' best ds m0 o m) as (C1 & C2 & C3).
    rewrite !app_assoc. rewrite <- (app_assoc (init_trace hp)).
    rewrite <- (app_assoc _ tr). apply consistent_app. split; [exact C1|].
    rewrite C2. apply consistent_app. split.
    + eapply epochs_consistent. exact Ht.
    + apply C3.
Qed.

End RunProperties.

Section Extras.

Context {scalar : Type} {C : Carriers scalar} {E : Externals C}.

Lemma length_flat_map_pair {A B} (a b : B) (l : list A) :
  List.length (flat_map (fun _ => [a; b]) l) = (2 * List.length l)%nat.
Proof. induction l as [|x l IH]; cbn [flat_map List.length app]; lia. Qed.

Lemma range_length n : List.length (range n) = Z.to_nat n.
Proof. unfold range. now rewrite length_map, length_seq. Qed.

Lemma epochs_scalar_count tg teg lr targets cadence m es tr o :
  cadence <> 0 ->
  epochs_trace tg teg lr targets cadence m es tr o ->
  List.length (scalar_tags tr) =
  (List.length es
   + 4 * List.length (filter (fun e => ((e + 1) mod cadence =? 0)%Z) es))%nat.
Proof.
  intros Hc.
  induction 1 as [|m e es tr m' tr' o H _ IH|m e es tr x H].
  - reflexivity.
  - rewrite scalar_tags_app, length_app, IH. cbn [filter].
    inversion H as [bs t _ Hm|bs r _ Hm Hr|]; subst;
      rewrite !scalar_tags_app, scalar_tags_steps.
    + apply Z.eqb_neq in Hm. rewrite Hm. cbn. lia.
    + rewrite Hm. cbn. lia.
  - apply epoch_raise_cadence in H. contradiction.
Qed.

(** X1: a run ends with [ZeroDivisionError] exactly when the cadence is 0
    and there is at least one epoch, and returns otherwise; the writer
    and the file are closed, once and in this order, exactly when it
    returns. *)
Theorem run_raises_iff_zero_cadence (s : Store) :
  let hp := hparams s in
  let r := run_experiment s in
  (outcome r = Raised ZeroDivisionError
     <-> stats_every_num_epochs hp = 0 /\ 0 < num_epochs hp)
  /\ (outcome r = Returned tt
     <-> stats_every_num_epochs hp <> 0 \/ num_epochs hp <= 0)
  /\ close_calls (events r) =
       match outcome r with
       | Returned _ => [EvWriterClose; EvFileClose]
       | Raised _ => []
       end.
Proof.
  destruct (run_experiment_more_readings s)
    as (best & ds & m0 & o & tr & _ & Ho & _ & Ht & _ & _ & Hcl & _).
  cbv zeta in *.
  destruct (epochs_outcome _ _ _ _ _ _ _ _ _ Ht) as (Hz & Hr & _).
  rewrite Ho, Hcl.
  destruct (Z.eq_dec (stats_every_num_epochs (hparams s)) 0) as [Hc|Hc];
    [destruct (Z_lt_le_dec 0 (num_epochs (hparams s))) as [Hn|Hn]|].
  - destruct (Hz (conj Hc Hn)) as (-> & _).
    repeat split; intros;
      solve [reflexivity | discriminate | lia | exfalso; lia].
  - destruct (Hr (or_intror Hn)) as (m' & ->).
    repeat split; intros;
      solve [reflexivity | discriminate | lia | exfalso; lia].
  - destruct (Hr (or_introl Hc)) as (m' & ->).
    repeat split; intros;
      solve [reflexivity | discriminate | lia | exfalso; lia].
Qed.

(** X2: with a cadence of 0 and at least one epoch, the run makes one
    pass over the training loader with its steps, hands the epoch time of
    epoch 0 to the sink as its last call, and stops there: nothing is
    evaluated, nothing is written to the log, and neither the writer nor
    the file is closed. *)
Theorem zero_cadence_stops_after_first_epoch (s : Store) :
  stats_every_num_epochs (hparams s) = 0 ->
  0 < num_epochs (hparams s) ->
  let tr := events (run_experiment s) in
  (exists pre t, tr = pre ++ [EvAddScalar "Epoch_time" t 0])
  /\ (exists dl bs,
        passes tr = [(dl, bs)]
        /\ training_view tr =
             Pass bs :: map (fun b => Step (fst b)
                                        (one_hot (snd b) (num_targets (hparams s)))) bs)
  /\ scalar_tags tr = ["Epoch_time"]
  /\ evaluations tr = []
  /\ file_writes tr = []
  /\ close_calls tr = [].
Proof.
  intros Hc Hn.
  destruct (run_experiment_more_readings s)
    as (best & ds & m0 & o & tr & He & _ & _ & Ht & _ & _ & Hcl & _).
  destruct (run_experiment_readings s)
    as (best' & ds' & m0' & o' & tr' & He' & _ & _ & Ht' & _ & Hv & Hp & _ & Htg & Hw
        & _ & _ & _ & Hev).
  cbv zeta in *.
  destruct (epochs_outcome _ _ _ _ _ _ _ _ _ Ht) as (Hz & _).
  destruct (Hz (conj Hc Hn)) as (-> & bs & t & ->).
  destruct (epochs_outcome _ _ _ _ _ _ _ _ _ Ht') as (Hz' & _).
  destruct (Hz' (conj Hc Hn)) as (-> & bs' & t' & ->).
  rewrite Hv, Hp, Htg, Hw, Hev, Hcl.
  autorewrite with readings.
  rewrite training_view_steps, passes_steps, scalar_tags_steps,
    evaluations_steps, file_writes_steps.
  refine (conj _ (conj _ (conj _ (conj _ (conj _ _))))); try reflexivity.
  - rewrite He'. cbn [done_trace]. rewrite app_nil_r.
    exists (init_trace (hparams s) ++ search_part (hparams s) best'
            ++ setup_trace (hparams_after (hparams s) best') ds' m0'
            ++ [EvIterate (get_training_dataloader ds') bs']
            ++ steps_trace (chosen_step_size (hparams s) best')
                 (num_targets (hparams s)) m0' bs'), t'.
    rewrite <- !app_assoc. reflexivity.
  - exists (get_training_dataloader ds'), bs'. cbn. rewrite app_nil_r.
    split; reflexivity.
Qed.


(** X4: of the keys of the dictionary, a run changes at most
    ["step_size"]; it leaves a dictionary with a configured step size as
    it is, and afterwards the step size is never null, whether the run
    returns or raises. *)
Theorem run_changes_only_step_size (s : Store) :
  let r := run_experiment s in
  (forall k, k <> "step_size" ->
     dict_get (to_dict (hparams (final r))) k = dict_get (to_dict (hparams s)) k)
  /\ (forall lr, step_size (hparams s) = Some lr -> hparams (final r) = hparams s)
  /\ (exists lr, dict_get (to_dict (hparams (final r))) "step_size" = Some (VFloat lr)).
Proof.
  destruct (run_experiment_more_readings s)
    as (best & ds & m0 & o & tr & _ & _ & Hf & _).
  cbv zeta in *. rewrite Hf. unfold hparams_after. repeat split.
  - intros k Hk. destruct (step_size (hparams s)); [reflexivity|].
    apply String.eqb_neq in Hk. unfold to_dict, dict_get. cbn.
    rewrite Hk. reflexivity.
  - now intros lr ->.
  - destruct (step_size (hparams s)) as [lr|] eqn:Hs.
    + exists lr. cbn. now rewrite Hs.
    + exists best. reflexivity.
Qed.

(** X5: the data server and the model are built once each, after the
    search, with the dictionary as the run leaves it: its step size is
    set, and is the one every call of [model.step] uses. *)
Theorem built_with_final_dictionary (s : Store) :
  let r := run_experiment s in
  exists lr,
    constructed_with (events r) = [hparams (final r); hparams (final r)]
    /\ step_size (hparams (final r)) = Some lr
    /\ Forall (fun c => call_lr c = lr) (step_calls (events r)).
Proof.
  destruct (run_experiment_more_readings s)
    as (best & ds & m0 & o & tr & _ & _ & Hf & Ht & _ & Hk & _).
  destruct (run_experiment_readings s)
    as (best' & ds' & m0' & o' & tr' & _ & _ & Hf' & Ht' & Hs & _).
  cbv zeta in *. exists (chosen_step_size (hparams s) best).
  rewrite Hk, Hf. repeat split.
  - apply hparams_after_fields.
  - rewrite Hs. apply epochs_steps_lr in Ht'.
    assert (Heq : chosen_step_size (hparams s) best' = chosen_step_size (hparams s) best).
    { pose proof (hparams_after_fields (hparams s) best) as (_ & _ & _ & _ & _ & _ & H1).
      pose proof (hparams_after_fields (hparams s) best') as (_ & _ & _ & _ & _ & _ & H2).
      rewrite <- Hf, Hf' in H1. congruence. }
    rewrite <- Heq. exact Ht'.
Qed.

(** X6: a second run on the dictionary a first run leaves makes no
    search, leaves the dictionary as it is, and trains as the first did:
    each of the two runs makes one pass over its training loader per
    epoch whose body is entered, with one call of [model.step] per batch,
    and every such call of both runs is given the step size that the
    dictionary holds after the first run. *)
Theorem rerun_does_not_search (s : Store) :
  let hp := hparams s in
  let r := run_experiment s in
  let r' := run_experiment (final r) in
  let epochs := entered_epochs (num_epochs hp) (stats_every_num_epochs hp) in
  search_calls (events r') = []
  /\ hparams (final r') = hparams (final r)
  /\ exists lr ds ds',
       step_size (hparams (final r)) = Some lr
       /\ In (EvDataServer (hparams (final r)) ds) (events r)
       /\ In (EvDataServer (hparams (final r)) ds') (events r')
       /\ trains_with (get_training_dataloader ds) lr (num_targets hp) epochs (events r)
       /\ trains_with (get_training_dataloader ds') lr (num_targets hp) epochs (events r')
       /\ Forall (fun c => call_lr c = lr) (step_calls (events r))
       /\ Forall (fun c => call_lr c = lr) (step_calls (events r')).
Proof.
  destruct (run_experiment_training s)
    as (best & ds & m0 & o & tr & _ & _ & Hf & _ & _ & _ & _ & _ & Hrun & Hds & _
        & Hst & Hlr).
  destruct (run_experiment_training (final (run_experiment s)))
    as (best' & ds' & m0' & o' & tr' & _ & _ & Hf' & _ & _ & Hsc' & _ & _ & Hrun' & Hds'
        & _ & _ & Hlr').
  cbv zeta in *.
  destruct (hparams_after_fields (hparams s) best) as (Hnt & Hcad & Hn & _).
  rewrite Hf in *.
  assert (Hsame : hparams_after (hparams_after (hparams s) best) best'
                  = hparams_after (hparams s) best).
  { unfold hparams_after at 1. now rewrite Hst. }
  assert (Hlr_same : chosen_step_size (hparams_after (hparams s) best) best'
                     = chosen_step_size (hparams s) best).
  { unfold chosen_step_size at 1. now rewrite Hst. }
  rewrite Hsame, Hlr_same, Hnt, Hcad, Hn in *. rewrite Hst in Hsc'.
  refine (conj Hsc' (conj Hf' _)).
  exists (chosen_step_size (hparams s) best), ds, ds'.
  auto 10.
Qed.

(** X7: the log is opened once, in write mode, under the name of the
    optimizer, as the second call of the run; nothing is written to it
    before, and every write comes before the [close] calls. *)
Theorem log_written_while_open (s : Store) :
  let hp := hparams s in
  let r := run_experiment s in
  opens (events r) = [((opt_str (optimizer hp) ++ "_training.txt")%string, "w")]
  /\ exists mid,
       events r =
         [EvSetRandomSeeds 420;
          EvOpen (opt_str (optimizer hp) ++ "_training.txt") "w"]
         ++ mid ++ close_calls (events r)
       /\ opens mid = []
       /\ close_calls mid = []
       /\ file_writes mid = file_writes (events r).
Proof.
  destruct (run_experiment_more_readings s)
    as (best & ds & m0 & o & tr & He & _ & _ & Ht & Hop & _ & Hcl & _).
  cbv zeta in *. split; [exact Hop|].
  pose proof (epochs_loop_events _ _ _ _ _ _ _ _ _ Ht) as Hl.
  destruct (loop_events_silent _ Hl) as (L1 & _ & L3).
  set (hp := hparams s) in *. set (hp' := hparams_after hp best) in *.
  exists ((if String.eqb (device hp) "cpu"
           then [EvJaxConfigUpdate "jax_platform_name" "cpu"] else [])
          ++ search_part hp best ++ setup_trace hp' ds m0 ++ tr).
  rewrite Hcl, He. unfold init_trace.
  destruct (phases_opens hp hp' best ds m0 o) as (_ & O2 & O3 & _).
  destruct (phases_closes hp hp' best ds m0 o) as (_ & Q2 & Q3 & _).
  rewrite !opens_app, !close_calls_app, O2, O3, Q2, Q3, L1, L3.
  autorewrite with readings.
  repeat split.
  - rewrite <- !app_assoc. reflexivity.
  - now destruct (String.eqb (device hp) "cpu").
  - now destruct (String.eqb (device hp) "cpu").
  - destruct o; cbn; now rewrite ?app_nil_r.
Qed.

(** X9: every step and every evaluation of a run is made on the model
    object in the state left by the steps before it, from the state in
    which [Model(hparams)] built it: an evaluation sees the model as
    trained by all steps so far. *)
Theorem evaluation_sees_trained_model (s : Store) (m : model) :
  consistent m (events (run_experiment s)).
Proof.
  destruct (run_experiment_more_readings s)
    as (best & ds & m0 & o & tr & _ & _ & _ & _ & _ & _ & _ & _ & Hc).
  apply Hc.
Qed.

(** X10: with a positive cadence, a run of [n >= 0] epochs writes
    [n // cadence] records to the log, evaluates the model twice as often,
    and calls the sink [n + 4 * (n // cadence)] times; with fewer epochs
    than the cadence the log stays empty. *)
Theorem log_record_count (s : Store) :
  0 < stats_every_num_epochs (hparams s) ->
  0 <= num_epochs (hparams s) ->
  let n := num_epochs (hparams s) in
  let c := stats_every_num_epochs (hparams s) in
  let tr := events (run_experiment s) in
  List.length (file_writes tr) = Z.to_nat (n / c)
  /\ List.length (evaluations tr) = (2 * Z.to_nat (n / c))%nat
  /\ List.length (scalar_tags tr) = (Z.to_nat n + 4 * Z.to_nat (n / c))%nat
  /\ (n < c -> file_writes tr = []).
Proof.
  intros Hc Hn.
  destruct (run_experiment_readings s)
    as (best & ds & m0 & o & tr & _ & _ & _ & Ht & _ & _ & _ & _ & Htg & Hw
        & _ & _ & _ & Hev).
  cbv zeta in *.
  destruct (epochs_records _ _ _ _ _ _ _ _ _ Ht) as (recs & Hr & Hfw & _).
  pose proof (epochs_evaluations _ _ _ _ _ _ _ _ _ Ht) as He.
  assert (Hc0 : stats_every_num_epochs (hparams s) <> 0) by lia.
  pose proof (epochs_scalar_count _ _ _ _ _ _ _ _ _ Hc0 Ht) as Hsc.
  pose proof (cadence_epochs_filter (num_epochs (hparams s))
                (stats_every_num_epochs (hparams s))) as Hce.
  pose proof (cadence_epochs_length _ _ Hc Hn) as Hlen.
  destruct (Z.eqb_spec (stats_every_num_epochs (hparams s)) 0) as [?|_]; [lia|].
  rewrite Hce in *.
  assert (Hrecs : List.length recs =
                  Z.to_nat (num_epochs (hparams s) / stats_every_num_epochs (hparams s))).
  { rewrite <- Hlen, <- Hr. now rewrite length_map. }
  rewrite Hw, Hev, Htg, Hfw, He, Hsc, length_map, length_flat_map_pair,
    range_length, Hlen, Hrecs.
  repeat split.
  intros Hlt. rewrite Z.div_small in Hrecs by lia.
  destruct recs; [reflexivity|discriminate].
Qed.

(** X11: the results of the last epoch reach the sink exactly when the
    cadence divides the number of epochs. *)
Theorem last_epoch_statistics_iff (s : Store) (tag : string) :
  0 < num_epochs (hparams s) ->
  In tag stat_tags ->
  (In (num_epochs (hparams s) - 1)
      (map snd (scalars_of tag (events (run_experiment s))))
   <-> (stats_every_num_epochs (hparams s) | num_epochs (hparams s))).
Proof.
  intros Hn Htag.
  destruct (run_experiment_readings s)
    as (best & ds & m0 & o & tr & _ & _ & _ & Ht & _ & _ & _ & Hsc & _).
  cbv zeta in *.
  rewrite Hsc, (epochs_stat_scalars tag _ _ _ _ _ _ _ _ _ Htag Ht),
    cadence_epochs_filter, cadence_epochs_spec.
  replace (num_epochs (hparams s) - 1 + 1) with (num_epochs (hparams s)) by lia.
  split; [tauto|]. intros H. split; [lia|exact H].
Qed.

(** X12: what the run prints is the rate found, when it searched, and
    then the records of the log, each as it is written to the log
    without the newline. *)
Theorem log_lines_are_printed (s : Store) :
  exists best msgs,
    prints (events (run_experiment s)) =
      match step_size (hparams s) with
      | None => [("best_lr = " ++ float_str best)%string]
      | Some _ => []
      end ++ msgs
    /\ file_writes (events (run_experiment s)) =
         map (fun msg => (msg ++ newline)%string) msgs.
Proof.
  destruct (run_experiment_more_readings s)
    as (best & ds & m0 & o & tr & He & _ & _ & Ht & _ & _ & _ & Hp & _).
  cbv zeta in *. exists best, (prints tr). split; [exact Hp|].
  pose proof (epochs_prints _ _ _ _ _ _ _ _ _ Ht) as Hw.
  rewrite <- Hw, He.
  destruct (phases_opens (hparams s) (hparams_after (hparams s) best) best ds m0 o)
    as (_ & _ & _ & _ & W1 & W2 & W3).
  autorewrite with readings. rewrite W1, W2, W3.
  destruct o; cbn; now rewrite ?app_nil_r.
Qed.

End Extras.

Section MainProperties.

Context {scalar : Type} {C : Carriers scalar} {E : Externals C}.

(** The records of the log of a run. *)
Lemma run_log_records (s : Store) :
  exists recs,
    file_writes (events (run_experiment s)) = map record_line recs
    /\ map rec_epoch recs =
         cadence_epochs (num_epochs (hparams s)) (stats_every_num_epochs (hparams s)).
Proof.
  destruct (run_experiment_readings s)
    as (best & ds & m0 & o & tr & _ & _ & _ & Ht & _ & _ & _ & _ & _ & Hw & _).
  cbv zeta in *.
  destruct (epochs_records _ _ _ _ _ _ _ _ _ Ht) as (recs & Hr & Hfw & _).
  exists recs. rewrite Hw, Hfw, Hr. split; [reflexivity|apply cadence_epochs_filter].
Qed.

(** The two runs of the main script. *)
Lemma main_events (w : world) :
  let hp_sgd := update_bracket (float_literal (1 # 2)) (float_literal 2)
                  (update_optimizer "sgd" hparams_literal) in
  exists best s1 s2,
    hparams s1 = hp_sgd
    /\ hparams s2 = update_bracket (float_literal (1 # 2)) (float_literal 2)
                      (update_optimizer "sng" (set_step_size (Some best) hp_sgd))
    /\ events (main w) =
         [EvPrint "Experiment SGD"; EvPrintJson (to_dict hp_sgd)]
         ++ events (run_experiment s1)
         ++ [EvPrint "Experiment SNG"; EvPrintJson (to_dict (hparams s2))]
         ++ events (run_experiment s2).
Proof.
  cbv zeta. unfold main, main_script.
  destruct (experiment_result "Experiment SGD" "sgd" (mkStore hparams_literal w))
    as (w1 & H1).
  cbv zeta in H1. cbn [hparams] in H1.
  set (hp_sgd := update_bracket _ _ (update_optimizer "sgd" hparams_literal)) in *.
  set (s1 := mkStore hp_sgd w1) in *.
  destruct (run_experiment_returns s1) as (best & w1' & tr1 & Hr1 & _).
  { cbn. discriminate. }
  cbn [hparams s1] in Hr1.
  change (hparams_after hp_sgd best) with (set_step_size (Some best) hp_sgd) in Hr1.
  unfold bind. rewrite H1, Hr1. cbn [after].
  match goal with |- context [experiment ?t ?o ?s] =>
    destruct (experiment_result t o s) as (w2 & H2) end.
  cbv zeta in H2. cbn [hparams] in H2.
  set (hp_sng := update_bracket _ _ (update_optimizer "sng" _)) in *.
  set (s2 := mkStore hp_sng w2) in *.
  rewrite H2.
  exists best, s1, s2. rewrite Hr1. cbn [events hparams s1 s2].
  destruct (run_experiment s2) as [o2 st2 tr2]. cbn [after events].
  repeat split.
Qed.

(** X8: the main script opens two logs, ["sgd_training.txt"] and then
    ["sng_training.txt"], and writes to them the records of the epochs
    9, 19, ..., 99 of the first experiment and then those of the second. *)
Theorem main_writes_two_logs (w : world) :
  opens (events (main w)) =
    [("sgd_training.txt", "w"); ("sng_training.txt", "w")]
  /\ exists recs1 recs2,
       file_writes (events (main w)) = map record_line recs1 ++ map record_line recs2
       /\ map rec_epoch recs1 = [9; 19; 29; 39; 49; 59; 69; 79; 89; 99]
       /\ map rec_epoch recs2 = [9; 19; 29; 39; 49; 59; 69; 79; 89; 99].
Proof.
  destruct (main_events w) as (best & s1 & s2 & Hs1 & Hs2 & He).
  cbv zeta in *.
  destruct (run_experiment_more_readings s1)
    as (b1 & d1 & m1 & o1 & t1 & _ & _ & _ & _ & Hop1 & _).
  destruct (run_experiment_more_readings s2)
    as (b2 & d2 & m2 & o2 & t2 & _ & _ & _ & _ & Hop2 & _).
  destruct (run_log_records s1) as (recs1 & Hw1 & Hr1).
  destruct (run_log_records s2) as (recs2 & Hw2 & Hr2).
  cbv zeta in *. rewrite Hs1 in Hop1, Hr1. rewrite Hs2 in Hop2, Hr2.
  rewrite He, !opens_app, !file_writes_app, Hop1, Hop2, Hw1, Hw2.
  split; [reflexivity|].
  exists recs1, recs2. repeat split.
  - rewrite Hr1. reflexivity.
  - rewrite Hr2. reflexivity.
Qed.

End MainProperties.

(** ** The properties with a hypothesis, on the small instance *)

Lemma zero_cadence_stops_after_first_epoch_witness :
  let tr := events (run_experiment (E := toy_in_place) (toy_store None 3 0 "tpu")) in
  scalar_tags tr = ["Epoch_time"]
  /\ file_writes tr = []
  /\ close_calls tr = [].
Proof.
  destruct (zero_cadence_stops_after_first_epoch (E := toy_in_place)
              (toy_store None 3 0 "tpu") eq_refl eq_refl)
    as (_ & _ & H3 & _ & H5 & H6).
  exact (conj H3 (conj H5 H6)).
Defined.


Lemma log_record_count_witness :
  List.length (file_writes
    (events (run_experiment (E := toy_in_place) (toy_store None 5 2 "cpu")))) = 2%nat
  /\ List.length (scalar_tags
    (events (run_experiment (E := toy_in_place) (toy_store None 5 2 "cpu")))) = 13%nat.
Proof.
  destruct (log_record_count (E := toy_in_place) (toy_store None 5 2 "cpu"))
    as (H1 & _ & H3 & _).
  - reflexivity.
  - discriminate.
  - exact (conj H1 H3).
Defined.

Lemma last_epoch_statistics_iff_witness :
  In 3 (map snd (scalars_of "Loss/test"
          (events (run_experiment (E := toy_in_place) (toy_store None 4 2 "cpu")))))
  <-> (2 | 4).
Proof.
  apply (last_epoch_statistics_iff (E := toy_in_place)
           (toy_store None 4 2 "cpu") "Loss/test").
  - reflexivity.
  - right. right. right. left. reflexivity.
Defined.
